(** * Three-way merge policy of [lib/yaml/merge3/visitor.go]

    A shallow embedding of the merge3 [Visitor] (the per-node-kind
    decision rules of the three-way merge and its canonical comparator)
    together with the properties of the rules.

    Go pointers are addresses into an explicit store, so that the
    aliasing of the three sources, the allocation of fresh seed nodes
    and the scoped style mutation of [getStrValues] are all visible. *)

From Stdlib Require Import ZArith String Bool.
From stdpp Require Import base option gmap strings list fin_maps.

Local Open Scope Z_scope.
Local Open Scope string_scope.

(** ** Addresses and Go values *)

(** An address of the store.  A Go pointer is [option loc]: [None] is
    [nil]. *)
Definition loc := positive.

(** Go's [error] interface: [None] is the [nil] error, [Some msg] an
    error carrying its message. *)
Definition error := option string.

Module yaml.

(** [yaml.Kind] of gopkg.in/yaml.v3; [ZeroKind] is the zero value of
    the type, carried by a [Node] literal that sets no [Kind]. *)
Inductive NodeKind :=
| ZeroKind | DocumentNode | SequenceNode | MappingNode | ScalarNode | AliasNode.

#[global] Instance NodeKind_eq_dec : EqDecision NodeKind.
Proof. solve_decision. Defined.

(** [yaml.Style]: a bit set over an unsigned 32-bit integer. *)
Definition NodeStyle := Z.

Definition TaggedStyle       : NodeStyle := Z.shiftl 1 0.
Definition DoubleQuotedStyle : NodeStyle := Z.shiftl 1 1.
Definition SingleQuotedStyle : NodeStyle := Z.shiftl 1 2.
Definition LiteralStyle      : NodeStyle := Z.shiftl 1 3.
Definition FoldedStyle       : NodeStyle := Z.shiftl 1 4.
Definition FlowStyle         : NodeStyle := Z.shiftl 1 5.

Definition NullNodeTag : string := "!!null".

(** [yaml.Node].  [Alias] and [Content] hold pointers to other nodes
    of the store. *)
Record Node := mkNode {
  Kind        : NodeKind;
  Style       : NodeStyle;
  Tag         : string;
  Value       : string;
  Anchor      : string;
  Alias       : option loc;
  Content     : list loc;
  HeadComment : string;
  LineComment : string;
  FootComment : string;
  Line        : Z;
  Column      : Z
}.

(** The zero value of [Node], and the literal [&yaml.Node{Kind: k}]. *)
Definition zeroNode : Node :=
  mkNode ZeroKind 0 "" "" "" None [] "" "" "" 0 0.

Definition NodeOfKind (k : NodeKind) : Node :=
  mkNode k 0 "" "" "" None [] "" "" "" 0 0.

#[global] Instance Node_inhabited : Inhabited Node := populate zeroNode.

(** The assignment [n.Style = s]. *)
Definition withStyle (s : NodeStyle) (n : Node) : Node :=
  mkNode (Kind n) s (Tag n) (Value n) (Anchor n) (Alias n) (Content n)
         (HeadComment n) (LineComment n) (FootComment n) (Line n) (Column n).

(** Modelled from the spec: [yaml.RNode], whose declaration is not
    part of this development, is the node reference of the
    repository's yaml package: a wrapper around a [*yaml.Node]. *)
Record RNode := mkRNode { value : option loc }.

#[global] Instance RNode_inhabited : Inhabited RNode := populate (mkRNode None).

End yaml.
Import yaml.

(** ** The store *)

(** The [yaml.Node] cells and the [RNode] wrappers live in two maps
    keyed by address.  Reading an address goes through the total
    lookup [!!!]; Go never produces a dangling pointer, so the default
    is not observed by a running program. *)
Record State := mkState {
  ynodes : gmap loc Node;
  rnodes : gmap loc RNode
}.

Definition NodePtr  := option loc.
Definition RNodePtr := option loc.

(** ** Computations

    A computation runs on the store and either returns a value with the
    new store or panics (a nil pointer dereference), leaving the store
    as it was at the panic. *)
Inductive Outcome (A : Type) :=
| Ok (a : A) (σ : State)
| Panic (σ : State).
Arguments Ok {A} a σ.
Arguments Panic {A} σ.

Definition M (A : Type) : Type := State → Outcome A.

#[global] Instance M_ret : MRet M := λ A a σ, Ok a σ.

#[global] Instance M_bind : MBind M :=
  λ A B k m σ, match m σ with
               | Ok a σ' => k a σ'
               | Panic σ' => Panic σ'
               end.

Definition get : M State := λ σ, Ok σ σ.

Definition panic {A} : M A := λ σ, Panic σ.

(** *** Pointer primitives *)

(** [*p] for [p : *yaml.Node]. *)
Definition deref (p : NodePtr) : M Node :=
  match p with
  | None => panic
  | Some y => λ σ, Ok (ynodes σ !!! y) σ
  end.

(** The store after [p.Style = s] for the cell at [y]: the cell is
    updated in place. *)
Definition styleStore (y : loc) (s : NodeStyle) (σ : State) : State :=
  mkState (alter (withStyle s) y (ynodes σ)) (rnodes σ).

(** [p.Style = s]. *)
Definition setStyle (p : NodePtr) (s : NodeStyle) : M unit :=
  match p with
  | None => panic
  | Some y => λ σ, Ok tt (styleStore y s σ)
  end.

(** [&yaml.Node{...}]: a new cell at an address that is not in use. *)
Definition newNode (n : Node) : M NodePtr :=
  λ σ, let y := fresh (dom (ynodes σ)) in
       Ok (Some y) (mkState (<[y := n]> (ynodes σ)) (rnodes σ)).

Module yamlpkg.

(** Modelled from the spec: [yaml.NewRNode], whose code is not part
    of this development, gives "a freshly created" node: the wrapper
    around the given [*yaml.Node] is allocated at an address that is
    not in use. *)
Definition NewRNode (v : NodePtr) : M RNodePtr :=
  λ σ, let a := fresh (dom (rnodes σ)) in
       Ok (Some a) (mkState (ynodes σ) (<[a := mkRNode v]> (rnodes σ))).

(** Modelled from the spec: the method [YNode] of [RNode], whose code
    is not part of this development, gives the node behind a node
    reference (the node that carries the style attribute and the
    literal value); there is none behind an absent ([nil]) reference. *)
Definition YNode (rn : RNodePtr) : M NodePtr :=
  match rn with
  | None => mret None
  | Some a => λ σ, Ok (value (rnodes σ !!! a)) σ
  end.

End yamlpkg.
Import yamlpkg.

(** The part of the repository's yaml package that [visitor.go] calls
    and whose code is not part of this development.  The three
    operations only read the document: they take the store and return
    a value.

    - [IsNull rn]: the node is an explicit null.
    - [IsEmpty rn]: the node is absent or empty.
    - [String rn]: the rendering of the node, or an error. *)
Class YamlAPI := {
  IsNull  : State → RNodePtr → bool;
  IsEmpty : State → RNodePtr → bool;
  String  : State → RNodePtr → string * error
}.

Module walk.

(** [walk.ListKind]. *)
Inductive ListKind := AssociativeList | NonAssociateList.

#[global] Instance ListKind_eq_dec : EqDecision ListKind.
Proof. solve_decision. Defined.

(** Modelled from the spec: [walk.Sources], whose declaration is not
    part of this development, is an immutable triple (Origin,
    Updated, Dest) of possibly-absent node references, read through
    the accessors [Origin()], [Updated()] and [Dest()]. *)
Record Sources := mkSources {
  Origin  : RNodePtr;
  Updated : RNodePtr;
  Dest    : RNodePtr
}.

(** [walk.ClearNode], the sentinel a rule returns to have the walker
    omit the position.  Its declaration is not part of this
    development: it is some [*yaml.RNode]. *)
Class WalkAPI := { ClearNode : RNodePtr }.

End walk.

(** ** Function bodies with [defer] and early [return]

    A statement of a function body runs on a frame: the store and the
    stack of deferred calls, most recent first.  It falls through to the
    next statement, returns from the function, or panics. *)
Record Frame := mkFrame {
  store    : State;
  deferred : list (M unit)
}.

Inductive Flow (R A : Type) :=
| Next (a : A)
| Return (r : R)
| Panicking.
Arguments Next {R A} a.
Arguments Return {R A} r.
Arguments Panicking {R A}.

Definition Body (R A : Type) : Type := Frame → Flow R A * Frame.

#[global] Instance Body_ret R : MRet (Body R) := λ A a f, (Next a, f).

#[global] Instance Body_bind R : MBind (Body R) :=
  λ A B k m f, match m f with
               | (Next a, f') => k a f'
               | (Return r, f') => (Return r, f')
               | (Panicking, f') => (Panicking, f')
               end.

(** A call or a pointer operation inside a body. *)
Definition lift {R A} (m : M A) : Body R A :=
  λ f, match m (store f) with
       | Ok a σ => (Next a, mkFrame σ (deferred f))
       | Panic σ => (Panicking, mkFrame σ (deferred f))
       end.

(** [defer d()]. *)
Definition defer {R} (d : M unit) : Body R unit :=
  λ f, (Next tt, mkFrame (store f) (d :: deferred f)).

(** [return r]. *)
Definition return_ {R A} (r : R) : Body R A := λ f, (Return r, f).

(** The deferred calls run last-in-first-out when the function leaves,
    also while it panics; a deferred call that panics leaves the
    function panicking and the remaining ones still run. *)
Fixpoint runDeferred (ds : list (M unit)) (σ : State) (p : bool) : State * bool :=
  match ds with
  | [] => (σ, p)
  | d :: ds' =>
      match d σ with
      | Ok _ σ' => runDeferred ds' σ' p
      | Panic σ' => runDeferred ds' σ' true
      end
  end.

(** A function whose body ends in a [return] on every path. *)
Definition func {R} (body : Body R Empty_set) : M R :=
  λ σ, let '(fl, f) := body (mkFrame σ []) in
       match fl with
       | Next e => match e with end
       | Return r =>
           let '(σ', p) := runDeferred (deferred f) (store f) false in
           if p then Panic σ' else Ok r σ'
       | Panicking => Panic (runDeferred (deferred f) (store f) true).1
       end.

(** ** The merge policy *)

Module merge3.

(** [type ConflictStrategy uint] with [TakeUpdate = 1 + iota]. *)
Definition ConflictStrategy := N.
Definition TakeUpdate : ConflictStrategy := (1 + 0)%N.

(** [type Visitor struct{}]. *)
Inductive Visitor : Set := mkVisitor.

Record strValues := mkStrValues {
  Origin : string;
  Update : string;
  Dest   : string
}.

Section Visitor.
Context `{!YamlAPI, !walk.WalkAPI}.

(** [rn.String()] as a call. *)
Definition callString (rn : RNodePtr) : M (string * error) :=
  λ σ, Ok (String σ rn) σ.

(** [func (m Visitor) VisitMap(nodes walk.Sources)], returning a [*yaml.RNode] and an [error].
    [IsNull] and [IsEmpty] only read the store, so the tests of a rule
    all look at the store the rule was called on. *)
Definition VisitMap (m : Visitor) (nodes : walk.Sources) : M (RNodePtr * error) :=
  σ ← get;
  if IsNull σ (walk.Updated nodes) || IsNull σ (walk.Dest nodes) then
    (* explicitly cleared from either dest or update *)
    mret (walk.ClearNode, None)
  else if IsEmpty σ (walk.Dest nodes) && IsEmpty σ (walk.Updated nodes) then
    (* implicitly cleared missing from both dest and update *)
    mret (walk.ClearNode, None)
  else if IsEmpty σ (walk.Dest nodes) then
    (* not cleared, but missing from the dest *)
    n ← newNode (NodeOfKind MappingNode);
    r ← NewRNode n;
    mret (r, None)
  else
    (* recursively merge the dest with the original and updated *)
    mret (walk.Dest nodes, None).

(** [func (m Visitor) visitAList(nodes walk.Sources)], returning a [*yaml.RNode] and an [error]. *)
Definition visitAList (m : Visitor) (nodes : walk.Sources) : M (RNodePtr * error) :=
  σ ← get;
  if IsEmpty σ (walk.Updated nodes) && negb (IsEmpty σ (walk.Origin nodes)) then
    (* implicitly cleared from update -- element was deleted *)
    mret (walk.ClearNode, None)
  else if IsEmpty σ (walk.Dest nodes) then
    (* not cleared, but missing from the dest *)
    n ← newNode (NodeOfKind SequenceNode);
    r ← NewRNode n;
    mret (r, None)
  else
    (* recursively merge the dest with the original and updated *)
    mret (walk.Dest nodes, None).

(** [func (m Visitor) VisitScalar(nodes walk.Sources)], returning a [*yaml.RNode] and an [error].
    The last test reads [.Value] through [YNode()] on both sides and
    panics on a nil node. *)
Definition VisitScalar (m : Visitor) (nodes : walk.Sources) : M (RNodePtr * error) :=
  σ ← get;
  if IsNull σ (walk.Updated nodes) || IsNull σ (walk.Dest nodes) then
    (* explicitly cleared from either dest or update *)
    mret (None, None)
  else if negb (eqb (IsEmpty σ (walk.Updated nodes)) (IsEmpty σ (walk.Origin nodes))) then
    (* value added or removed in update *)
    mret (walk.Updated nodes, None)
  else if IsEmpty σ (walk.Updated nodes) && IsEmpty σ (walk.Origin nodes) then
    (* value added or removed in update *)
    mret (walk.Dest nodes, None)
  else
    yu ← YNode (walk.Updated nodes);
    u ← deref yu;
    yo ← YNode (walk.Origin nodes);
    o ← deref yo;
    if bool_decide (Value u ≠ Value o) then
      (* value changed in update *)
      mret (walk.Updated nodes, None)
    else
      (* unchanged between origin and update, keep the dest *)
      mret (walk.Dest nodes, None).

(** The deferred closure [func() { rn.YNode().Style = s }]. *)
Definition restoreStyle (rn : RNodePtr) (s : NodeStyle) : M unit :=
  y ← YNode rn;
  setStyle y s.

(** [func (m Visitor) getStrValues(nodes walk.Sources) (strValues, error)]:
    the canonical comparator.  The three blocks are those of the
    source, in its order: Updated, Origin, Dest. *)
Definition getStrValues (m : Visitor) (nodes : walk.Sources) : M (strValues * error) :=
  func (
    uStr ← (y ← lift (YNode (walk.Updated nodes));
            if bool_decide (walk.Updated nodes ≠ None) && bool_decide (y ≠ None) then
              y ← lift (YNode (walk.Updated nodes));
              n ← lift (deref y);
              let s := Style n in
              defer (restoreStyle (walk.Updated nodes) s);;
              y ← lift (YNode (walk.Updated nodes));
              lift (setStyle y (Z.lor FlowStyle SingleQuotedStyle));;
              '(uStr, err) ← lift (callString (walk.Updated nodes));
              if bool_decide (err ≠ None) then return_ (mkStrValues "" "" "", err)
              else mret uStr
            else mret "");
    oStr ← (y ← lift (YNode (walk.Origin nodes));
            if bool_decide (walk.Origin nodes ≠ None) && bool_decide (y ≠ None) then
              y ← lift (YNode (walk.Origin nodes));
              n ← lift (deref y);
              let s := Style n in
              defer (restoreStyle (walk.Origin nodes) s);;
              y ← lift (YNode (walk.Origin nodes));
              lift (setStyle y (Z.lor FlowStyle SingleQuotedStyle));;
              '(oStr, err) ← lift (callString (walk.Origin nodes));
              if bool_decide (err ≠ None) then return_ (mkStrValues "" "" "", err)
              else mret oStr
            else mret "");
    dStr ← (y ← lift (YNode (walk.Dest nodes));
            if bool_decide (walk.Dest nodes ≠ None) && bool_decide (y ≠ None) then
              y ← lift (YNode (walk.Dest nodes));
              n ← lift (deref y);
              let s := Style n in
              defer (restoreStyle (walk.Dest nodes) s);;
              y ← lift (YNode (walk.Dest nodes));
              lift (setStyle y (Z.lor FlowStyle SingleQuotedStyle));;
              '(dStr, err) ← lift (callString (walk.Dest nodes));
              if bool_decide (err ≠ None) then return_ (mkStrValues "" "" "", err)
              else mret dStr
            else mret "");
    return_ (mkStrValues oStr uStr dStr, None)).

(** [func (m Visitor) visitNAList(nodes walk.Sources)], returning a [*yaml.RNode] and an [error]. *)
Definition visitNAList (m : Visitor) (nodes : walk.Sources) : M (RNodePtr * error) :=
  σ ← get;
  if IsNull σ (walk.Updated nodes) || IsNull σ (walk.Dest nodes) then
    (* explicitly cleared from either dest or update *)
    mret (walk.ClearNode, None)
  else if negb (eqb (IsEmpty σ (walk.Updated nodes)) (IsEmpty σ (walk.Origin nodes))) then
    (* value added or removed in update *)
    mret (walk.Updated nodes, None)
  else if IsEmpty σ (walk.Updated nodes) && IsEmpty σ (walk.Origin nodes) then
    (* value not present in source or dest *)
    mret (walk.Dest nodes, None)
  else
    (* compare origin and update values to see if they have changed *)
    '(values, err) ← getStrValues m nodes;
    if bool_decide (err ≠ None) then mret (None, err)
    else if bool_decide (Update values ≠ Origin values) then
      (* value changed in update *)
      mret (walk.Updated nodes, None)
    else
      (* unchanged between origin and update, keep the dest *)
      mret (walk.Dest nodes, None).

(** [func (m Visitor) VisitList(nodes walk.Sources, kind walk.ListKind)]. *)
Definition VisitList (m : Visitor) (nodes : walk.Sources) (kind : walk.ListKind)
  : M (RNodePtr * error) :=
  if bool_decide (kind = walk.AssociativeList) then visitAList m nodes
  else
    (* non-associative list *)
    visitNAList m nodes.

End Visitor.
End merge3.

(** ** Observations on the store *)

(** The node behind a reference, as [YNode] reads it. *)
Definition ynodeOf (σ : State) (rn : RNodePtr) : NodePtr :=
  match rn with
  | None => None
  | Some a => value (rnodes σ !!! a)
  end.

Definition nodeOf (σ : State) (rn : RNodePtr) : option Node :=
  y ← ynodeOf σ rn; Some (ynodes σ !!! y).

(** The literal value and the stored style of the node behind a
    reference; [None] when there is no node. *)
Definition valueOf (σ : State) (rn : RNodePtr) : option string :=
  Value <$> nodeOf σ rn.

Definition styleOf (σ : State) (rn : RNodePtr) : option NodeStyle :=
  Style <$> nodeOf σ rn.

(** The reference exists in the store [σ]: it is [nil], or the
    address of an allocated wrapper around [nil] or an allocated cell. *)
Definition allocated (σ : State) (rn : RNodePtr) : Prop :=
  match rn with
  | None => True
  | Some a =>
      a ∈ dom (rnodes σ)
      ∧ match ynodeOf σ rn with
        | None => True
        | Some y => y ∈ dom (ynodes σ)
        end
  end.

(** The store in which the node behind [rn] carries the style that
    [getStrValues] renders with. *)
Definition flowStyled (rn : RNodePtr) (σ : State) : State :=
  match rn, ynodeOf σ rn with
  | Some _, Some y => styleStore y (Z.lor FlowStyle SingleQuotedStyle) σ
  | _, _ => σ
  end.

(** The canonical string form of [rn] in [σ]: its rendering under that
    style, the empty string when there is no node. *)
Definition canonical `{!YamlAPI} (σ : State) (rn : RNodePtr) : string * error :=
  match rn, ynodeOf σ rn with
  | Some _, Some _ => String (flowStyled rn σ) rn
  | _, _ => ("", None)
  end.

(** What [getStrValues] returns, in terms of the canonical forms:
    Updated is rendered first, then Origin, then Dest, each with the
    styles of the nodes before it still overridden; the first rendering
    error ends the comparison. *)
Definition strValuesOf `{!YamlAPI} (nodes : walk.Sources) (σ : State)
  : merge3.strValues * error :=
  let σu := flowStyled (walk.Updated nodes) σ in
  let σo := flowStyled (walk.Origin nodes) σu in
  match canonical σ (walk.Updated nodes) with
  | (_, Some e) => (merge3.mkStrValues "" "" "", Some e)
  | (uStr, None) =>
      match canonical σu (walk.Origin nodes) with
      | (_, Some e) => (merge3.mkStrValues "" "" "", Some e)
      | (oStr, None) =>
          match canonical σo (walk.Dest nodes) with
          | (_, Some e) => (merge3.mkStrValues "" "" "", Some e)
          | (dStr, None) => (merge3.mkStrValues oStr uStr dStr, None)
          end
      end
  end.

(** The statement block that [getStrValues] repeats for each of the
    three nodes: save the style, defer its restoration, override it,
    render, and leave the function on a rendering error. *)
Definition styledString `{!YamlAPI} (rn : RNodePtr)
  : Body (merge3.strValues * error) string :=
  y ← lift (YNode rn);
  if bool_decide (rn ≠ None) && bool_decide (y ≠ None) then
    y ← lift (YNode rn);
    n ← lift (deref y);
    let s := Style n in
    defer (merge3.restoreStyle rn s);;
    y ← lift (YNode rn);
    lift (setStyle y (Z.lor FlowStyle SingleQuotedStyle));;
    '(str, err) ← lift (merge3.callString rn);
    if bool_decide (err ≠ None) then return_ (merge3.mkStrValues "" "" "", err)
    else mret str
  else mret "".

(** The seed of a recursive merge, as the map rule and the
    associative-list rule build it:
    [yaml.NewRNode(&yaml.Node{Kind: k})] returned with a nil error. *)
Definition newSeed (k : NodeKind) : M (RNodePtr * error) :=
  n ← newNode (NodeOfKind k);
  r ← NewRNode n;
  mret (r, None).

(** The frame [f] unwinds to [σ0]: running its deferred calls, most
    recent first, restores the store [σ0] without a panic. *)
Definition unwinds (σ0 : State) (f : Frame) : Prop :=
  runDeferred (deferred f) (store f) false = (σ0, false).

(** ** A model of the library operations

    The operations of [YamlAPI] and the sentinel of [walk.WalkAPI]
    instantiated, to run the rules on concrete documents. *)
Module model.

(** Modelled from the spec: [yaml.IsNull], whose code is not part of
    this development, holds when "the position exists and holds an
    explicit null value". *)
Definition IsNull (σ : State) (rn : RNodePtr) : bool :=
  match nodeOf σ rn with
  | Some n => bool_decide (Tag n = NullNodeTag)
  | None => false
  end.

(** Modelled from the spec: [yaml.IsEmpty], whose code is not part of
    this development, holds for an "empty/absent" position: there is
    no node, or the node is a map or a list without children. *)
Definition IsEmpty (σ : State) (rn : RNodePtr) : bool :=
  match nodeOf σ rn with
  | Some n =>
      (bool_decide (Kind n = MappingNode) || bool_decide (Kind n = SequenceNode))
      && bool_decide (Content n = [])
  | None => true
  end.

(** The key/value items of a mapping, two by two. *)
Fixpoint fields (items : list string) : option (list string) :=
  match items with
  | [] => Some []
  | k :: v :: rest => (λ fs, (k ++ ": " ++ v) :: fs) <$> fields rest
  | [_] => None
  end.

Definition newline : string := String.String (Ascii.ascii_of_nat 10) "".

(** The bit [flag] is set in the style [s]. *)
Definition hasStyle (s flag : NodeStyle) : bool := negb (Z.eqb (Z.land s flag) 0).

(** A node rendered under its stored style.  A list or a map is on one
    line, in brackets, when it carries the flow style or sits inside a
    flow node, and has one item per line otherwise; a scalar is
    single-quoted when it carries that style and plain otherwise.
    [None] when the node cannot be rendered: a kind that is none of
    scalar, list and map, a map with a key and no value, or children
    nested deeper than [fuel]. *)
Fixpoint render (fuel : nat) (h : gmap loc Node) (inFlow : bool) (y : loc)
  : option string :=
  match fuel with
  | O => None
  | S fuel' =>
      let n := h !!! y in
      let flow := inFlow || hasStyle (Style n) FlowStyle in
      match Kind n with
      | ScalarNode =>
          Some (if bool_decide (Tag n = NullNodeTag) then "null"
                else if hasStyle (Style n) SingleQuotedStyle then "'" ++ Value n ++ "'"
                else Value n)
      | SequenceNode =>
          items ← mapM (render fuel' h flow) (Content n);
          Some (if flow then "[" ++ String.concat ", " items ++ "]"
                else String.concat newline ((λ i, "- " ++ i) <$> items))
      | MappingNode =>
          items ← mapM (render fuel' h flow) (Content n);
          fs ← fields items;
          Some (if flow then "{" ++ String.concat ", " fs ++ "}"
                else String.concat newline fs)
      | _ => None
      end
  end.

(** Modelled from the spec: the method [String] of [RNode], whose
    code is not part of this development, renders the node with its
    stored formatting; under the flow and single-quoted styles the
    result is the "single-line, deterministically quoted string
    representation independent of original formatting/indentation";
    it "fails only if the node cannot be rendered (malformed
    structure)". *)
Definition String (σ : State) (rn : RNodePtr) : string * error :=
  match ynodeOf σ rn with
  | None => ("", None)
  | Some y =>
      match render (S (size (ynodes σ))) (ynodes σ) false y with
      | Some s => (s, None)
      | None => ("", Some "cannot encode node")
      end
  end.

Definition yamlAPI : YamlAPI := Build_YamlAPI IsNull IsEmpty String.

(** Modelled from the spec: [walk.ClearNode], whose declaration is
    not part of this development, is "a distinguished value
    understood by the walker", and the scalar rule's no-value "is
    signaled distinctly from Clear": a wrapper of its own, at
    address 1, around no node. *)
Definition clearAddr : loc := 1%positive.

Definition walkAPI : walk.WalkAPI := {| walk.ClearNode := Some clearAddr |}.

(** *** A store of documents *)

Definition scalarNode (style : NodeStyle) (tag v comment : string) : Node :=
  mkNode ScalarNode style tag v "" None [] "" comment "" 0 0.

Definition nullNode : Node := scalarNode 0 NullNodeTag "null" "".

Definition seqNode (style : NodeStyle) (items : list loc) : Node :=
  mkNode SequenceNode style "!!seq" "" "" None items "" "" "" 0 0.

Definition mapNode (style : NodeStyle) (items : list loc) : Node :=
  mkNode MappingNode style "!!map" "" "" None items "" "" "" 0 0.

(** Cells 1 to 11: the scalars [1], [2] and ["1"] (the last one
    double-quoted, tagged as a string and commented), a null, the key
    [a], the lists [[1, 2]] in block and in flow style and [[2]], the
    map [{a: 1}], a cell of no kind and a list holding it. *)
Definition cells : gmap loc Node :=
  list_to_map
    [ (1%positive, scalarNode 0 "!!int" "1" "");
      (2%positive, scalarNode 0 "!!int" "2" "");
      (3%positive, scalarNode DoubleQuotedStyle "!!str" "1" "# one");
      (4%positive, nullNode);
      (5%positive, scalarNode 0 "!!str" "a" "");
      (6%positive, seqNode 0 [1%positive; 2%positive]);
      (7%positive, seqNode FlowStyle [1%positive; 2%positive]);
      (8%positive, seqNode 0 [2%positive]);
      (9%positive, mapNode 0 [5%positive; 1%positive]);
      (10%positive, zeroNode);
      (11%positive, seqNode 0 [10%positive]) ].

(** Wrapper 1 is the Clear sentinel; wrapper [n + 1] is a reference
    to cell [n]. *)
Definition wrappers : gmap loc RNode :=
  list_to_map
    [ (1%positive, mkRNode None);
      (2%positive, mkRNode (Some 1%positive));
      (3%positive, mkRNode (Some 2%positive));
      (4%positive, mkRNode (Some 3%positive));
      (5%positive, mkRNode (Some 4%positive));
      (6%positive, mkRNode (Some 5%positive));
      (7%positive, mkRNode (Some 6%positive));
      (8%positive, mkRNode (Some 7%positive));
      (9%positive, mkRNode (Some 8%positive));
      (10%positive, mkRNode (Some 9%positive));
      (11%positive, mkRNode (Some 10%positive));
      (12%positive, mkRNode (Some 11%positive)) ].

Definition docs : State := mkState cells wrappers.

Definition one       : RNodePtr := Some 2%positive.
Definition two       : RNodePtr := Some 3%positive.
Definition oneQuoted : RNodePtr := Some 4%positive.
Definition null      : RNodePtr := Some 5%positive.
Definition keyA      : RNodePtr := Some 6%positive.
Definition list12    : RNodePtr := Some 7%positive.
Definition flow12    : RNodePtr := Some 8%positive.
Definition list2     : RNodePtr := Some 9%positive.
Definition mapA1     : RNodePtr := Some 10%positive.
Definition broken    : RNodePtr := Some 12%positive.

Definition deletedItem      := walk.mkSources mapA1 None mapA1.
Definition sameNullDest     := walk.mkSources one one null.
Definition sameScalar       := walk.mkSources one one two.
Definition changedNullDest  := walk.mkSources one two null.
Definition changedScalar    := walk.mkSources one two keyA.
Definition restyledNullDest := walk.mkSources list12 flow12 null.
Definition shorterNullDest  := walk.mkSources list12 list2 null.
Definition restyledList     := walk.mkSources list12 flow12 list2.
Definition addedMap         := walk.mkSources None mapA1 None.
Definition allAbsent        := walk.mkSources None None None.
Definition requotedNullDest := walk.mkSources one oneQuoted null.
Definition requotedScalar   := walk.mkSources one oneQuoted keyA.
Definition brokenUpdate     := walk.mkSources list12 broken list12.
Definition brokenDest       := walk.mkSources list12 flow12 broken.
Definition aliased          := walk.mkSources flow12 flow12 flow12.
Definition removedScalar    := walk.mkSources one None one.
Definition localOnly        := walk.mkSources None None two.
Definition keptList         := walk.mkSources list12 list12 list2.
Definition addedItem        := walk.mkSources None list12 None.
Definition hollow           := walk.mkSources (Some clearAddr) None (Some clearAddr).

(** The rules of the policy on the model. *)
Definition VisitMap     := @merge3.VisitMap yamlAPI walkAPI merge3.mkVisitor.
Definition visitAList   := @merge3.visitAList yamlAPI walkAPI merge3.mkVisitor.
Definition visitNAList  := @merge3.visitNAList yamlAPI walkAPI merge3.mkVisitor.
Definition VisitList    := @merge3.VisitList yamlAPI walkAPI merge3.mkVisitor.
Definition VisitScalar  := @merge3.VisitScalar yamlAPI merge3.mkVisitor.
Definition getStrValues := @merge3.getStrValues yamlAPI merge3.mkVisitor.

End model.


(** * Properties *)

(** ** The store and the pointer primitives *)

Lemma withStyle_restore (s : NodeStyle) (n : Node) :
  withStyle (Style n) (withStyle s n) = n.
Proof. by destruct n. Qed.

(** Writing back the style a cell had undoes an override of it. *)
Lemma styleStore_restore (y : loc) (s : NodeStyle) (σ : State) :
  styleStore y (Style (ynodes σ !!! y)) (styleStore y s σ) = σ.
Proof.
  destruct σ as [h r]. unfold styleStore. simpl. f_equal.
  rewrite alter_alter_eq. apply alter_id. intros n Hn. simpl.
  rewrite (lookup_total_correct _ _ _ Hn). apply withStyle_restore.
Qed.

Lemma styleStore_style (y : loc) (s : NodeStyle) (σ : State) :
  y ∈ dom (ynodes σ) → Style (ynodes (styleStore y s σ) !!! y) = s.
Proof.
  intros Hy. apply elem_of_dom in Hy as [n Hn]. unfold styleStore. simpl.
  rewrite lookup_total_alt, lookup_alter_eq, Hn. done.
Qed.

(** While a node is rendered, its stored style is the override. *)
Lemma flowStyled_style (σ : State) (a y : loc) :
  ynodeOf σ (Some a) = Some y → y ∈ dom (ynodes σ) →
  styleOf (flowStyled (Some a) σ) (Some a) = Some (Z.lor FlowStyle SingleQuotedStyle).
Proof.
  intros Hy Hd. unfold styleOf, nodeOf, flowStyled. rewrite Hy. simpl.
  simpl in Hy. rewrite Hy. simpl. f_equal.
  by apply (styleStore_style y _ σ).
Qed.

Lemma YNode_run (rn : RNodePtr) (σ : State) : YNode rn σ = Ok (ynodeOf σ rn) σ.
Proof. by destruct rn. Qed.

Lemma restoreStyle_run (rn : RNodePtr) (s : NodeStyle) (σ : State) (y : loc) :
  ynodeOf σ rn = Some y → merge3.restoreStyle rn s σ = Ok tt (styleStore y s σ).
Proof.
  intros Hy. unfold merge3.restoreStyle, mbind, M_bind.
  by rewrite YNode_run, Hy.
Qed.

(** ** The canonical comparator *)

Section Comparator.
Context `{!YamlAPI}.

Lemma getStrValues_blocks (m : merge3.Visitor) (nodes : walk.Sources) :
  merge3.getStrValues m nodes =
  func (uStr ← styledString (walk.Updated nodes);
        oStr ← styledString (walk.Origin nodes);
        dStr ← styledString (walk.Dest nodes);
        return_ (merge3.mkStrValues oStr uStr dStr, None)).
Proof. reflexivity. Qed.

(** One block: the node is rendered in its canonical form, the store
    is left with the style overridden, and the frame still unwinds to
    the store of the call. *)
Lemma styledString_run (rn : RNodePtr) (f : Frame) (σ0 : State) :
  unwinds σ0 f →
  ∃ f', unwinds σ0 f'
        ∧ store f' = flowStyled rn (store f)
        ∧ styledString rn f =
          (match canonical (store f) rn with
           | (str, None) => Next str
           | (_, Some e) => Return (merge3.mkStrValues "" "" "", Some e)
           end, f').
Proof.
  unfold unwinds. intros Hrun. destruct f as [σ ds]. simpl in *.
  unfold styledString, canonical, flowStyled.
  unfold mbind, Body_bind, lift. simpl. rewrite !YNode_run.
  destruct rn as [a|]; simpl.
  2:{ exists (mkFrame σ ds). by repeat split. }
  destruct (value (rnodes σ !!! a)) as [y|] eqn:Hy; simpl.
  2:{ exists (mkFrame σ ds). by repeat split. }
  rewrite Hy. simpl. rewrite Hy. simpl.
  set (σ1 := styleStore y (Z.lor FlowStyle SingleQuotedStyle) σ).
  exists (mkFrame σ1 (merge3.restoreStyle (Some a) (Style (ynodes σ !!! y)) :: ds)).
  split; [|split; [done|]].
  - simpl. rewrite (restoreStyle_run _ _ _ y) by done.
    unfold σ1. by rewrite styleStore_restore.
  - unfold merge3.callString. destruct (String σ1 (Some a)) as [str [e|]]; done.
Qed.

(** [getStrValues] returns, never panics, computes [strValuesOf] and
    hands the store back as it received it: every deferred
    restoration has run, last registered first. *)
Lemma getStrValues_run (m : merge3.Visitor) (nodes : walk.Sources) (σ : State) :
  merge3.getStrValues m nodes σ = Ok (strValuesOf nodes σ) σ.
Proof.
  rewrite getStrValues_blocks. unfold func, strValuesOf.
  unfold mbind, Body_bind, return_.
  assert (H0 : unwinds σ (mkFrame σ [])) by done.
  destruct (styledString_run (walk.Updated nodes) _ _ H0) as (f1 & H1 & S1 & ->).
  cbn [store] in *.
  destruct (canonical σ (walk.Updated nodes)) as [uStr [e|]].
  { by rewrite H1. }
  destruct (styledString_run (walk.Origin nodes) _ _ H1) as (f2 & H2 & S2 & ->).
  rewrite S1 in *.
  destruct (canonical _ (walk.Origin nodes)) as [oStr [e|]].
  { by rewrite H2. }
  destruct (styledString_run (walk.Dest nodes) _ _ H2) as (f3 & H3 & S3 & ->).
  rewrite S2 in *.
  destruct (canonical _ (walk.Dest nodes)) as [dStr [e|]].
  { by rewrite H3. }
  by rewrite H3.
Qed.

(** A rendering error reported by the comparator is the error that
    [String] returned for one of the three nodes. *)
Lemma strValuesOf_error (nodes : walk.Sources) (σ : State) (e : string) :
  (strValuesOf nodes σ).2 = Some e →
  ∃ σ' rn str,
    rn ∈ [walk.Updated nodes; walk.Origin nodes; walk.Dest nodes]
    ∧ String σ' rn = (str, Some e).
Proof.
  assert (Hc : ∀ σ1 rn str, canonical σ1 rn = (str, Some e) →
               String (flowStyled rn σ1) rn = (str, Some e)).
  { intros σ1 rn str. unfold canonical.
    destruct rn as [a|]; [|done]. by destruct (ynodeOf σ1 (Some a)). }
  unfold strValuesOf.
  destruct (canonical σ _) as [uStr [eu|]] eqn:Cu.
  { simpl. intros [= ->]. apply Hc in Cu. do 3 eexists. split; [|exact Cu]. set_solver. }
  destruct (canonical _ (walk.Origin nodes)) as [oStr [eo|]] eqn:Co.
  { simpl. intros [= ->]. apply Hc in Co. do 3 eexists. split; [|exact Co]. set_solver. }
  destruct (canonical _ (walk.Dest nodes)) as [dStr [ed|]] eqn:Cd.
  { simpl. intros [= ->]. apply Hc in Cd. do 3 eexists. split; [|exact Cd]. set_solver. }
  done.
Qed.

(** C7: the canonical comparator returns (it does not panic) and, on
    the success path and on the failure path alike, leaves the stored
    style of Origin, Updated and Dest, and of every other cell, as it
    was before the call: each override has been reverted. *)
Theorem getStrValues_restores_style (m : merge3.Visitor) (nodes : walk.Sources)
    (σ : State) :
  ∃ r σ',
    merge3.getStrValues m nodes σ = Ok r σ'
    ∧ (∀ rn, rn ∈ [walk.Origin nodes; walk.Updated nodes; walk.Dest nodes] →
             styleOf σ' rn = styleOf σ rn)
    ∧ (∀ y, Style (ynodes σ' !!! y) = Style (ynodes σ !!! y)).
Proof.
  exists (strValuesOf nodes σ), σ. split; [apply getStrValues_run | done].
Qed.
End Comparator.

(** ** The decision rules *)

(** Runs a rule up to its tests on the store. *)
Ltac run_rule :=
  unfold merge3.VisitMap, merge3.visitAList, merge3.VisitScalar, merge3.visitNAList;
  unfold mbind, M_bind, mret, M_ret, get; cbn beta iota.

Section Rules.
Context `{!YamlAPI, !walk.WalkAPI}.
Implicit Types (m : merge3.Visitor) (nodes : walk.Sources) (σ : State).

(** The seed a rule allocates: a new wrapper around a new cell of
    kind [k] without children, both at addresses the store did not
    use; the cells and wrappers of the store stay as they are. *)
Lemma seed_fresh (k : NodeKind) σ :
  ∃ a y σ',
    newSeed k σ = Ok (Some a, None) σ'
    ∧ (a ∉ dom (rnodes σ)) ∧ (y ∉ dom (ynodes σ))
    ∧ rnodes σ' = <[a := mkRNode (Some y)]> (rnodes σ)
    ∧ ynodes σ' = <[y := NodeOfKind k]> (ynodes σ)
    ∧ nodeOf σ' (Some a) = Some (NodeOfKind k).
Proof.
  exists (fresh (dom (rnodes σ))), (fresh (dom (ynodes σ))). eexists.
  split; [reflexivity|]. simpl.
  split; [apply is_fresh|]. split; [apply is_fresh|].
  split; [done|]. split; [done|].
  unfold nodeOf, ynodeOf. simpl.
  rewrite lookup_total_insert_eq. simpl. by rewrite lookup_total_insert_eq.
Qed.

(** A wrapper found in the store, around [nil] or around a cell found
    in the store, is a reference that exists there. *)
Lemma allocated_intro σ (a : loc) (r : RNode) :
  rnodes σ !! a = Some r →
  (∀ y, value r = Some y → is_Some (ynodes σ !! y)) →
  allocated σ (Some a).
Proof.
  intros Hr Hy. split; [apply elem_of_dom; by eexists|].
  simpl. rewrite (lookup_total_correct _ _ _ Hr).
  destruct (value r) as [y|] eqn:Hv; [|done].
  apply elem_of_dom. by apply Hy.
Qed.

(** A reference that exists in the store is not the address of a
    wrapper allocated later, and its node is not a cell allocated
    later. *)
Lemma allocated_not_fresh σ (rn : RNodePtr) (a y : loc) :
  allocated σ rn → a ∉ dom (rnodes σ) → y ∉ dom (ynodes σ) →
  rn ≠ Some a ∧ ynodeOf σ rn ≠ Some y.
Proof.
  intros Hal Ha Hy. destruct rn as [a'|]; [|done].
  destruct Hal as [Ha' Hy']. split; [congruence|].
  destruct (ynodeOf σ (Some a')); congruence.
Qed.



Lemma VisitScalar_null m nodes σ :
  IsNull σ (walk.Updated nodes) || IsNull σ (walk.Dest nodes) = true →
  merge3.VisitScalar m nodes σ = Ok (None, None) σ.
Proof. intros E. run_rule. by rewrite E. Qed.

(** The scalar rule past its guards: neither side is an explicit
    null, Updated and Origin are both non-empty and both have a node.
    The literal values alone decide. *)
Lemma VisitScalar_compare m nodes σ (u o : Node) :
  IsNull σ (walk.Updated nodes) = false →
  IsNull σ (walk.Dest nodes) = false →
  IsEmpty σ (walk.Updated nodes) = false →
  IsEmpty σ (walk.Origin nodes) = false →
  nodeOf σ (walk.Updated nodes) = Some u →
  nodeOf σ (walk.Origin nodes) = Some o →
  merge3.VisitScalar m nodes σ =
  Ok (if bool_decide (Value u ≠ Value o) then walk.Updated nodes else walk.Dest nodes,
      None) σ.
Proof.
  intros Hu Hd Eu Eo Nu No. run_rule. rewrite Hu, Hd, Eu, Eo. simpl.
  unfold nodeOf in Nu, No.
  destruct (ynodeOf σ (walk.Updated nodes)) as [yu|] eqn:Yu; [|done].
  destruct (ynodeOf σ (walk.Origin nodes)) as [yo|] eqn:Yo; [|done].
  simpl in *. injection Nu as <-. injection No as <-.
  rewrite YNode_run, Yu. simpl. rewrite YNode_run, Yo. simpl.
  by case_bool_decide.
Qed.

(** The non-associative-list rule past its guards hands the decision
    to the comparator. *)
Lemma visitNAList_compare m nodes σ :
  IsNull σ (walk.Updated nodes) = false →
  IsNull σ (walk.Dest nodes) = false →
  IsEmpty σ (walk.Updated nodes) = false →
  IsEmpty σ (walk.Origin nodes) = false →
  merge3.visitNAList m nodes σ =
  match strValuesOf nodes σ with
  | (_, Some e) => Ok (None, Some e) σ
  | (values, None) =>
      Ok (if bool_decide (merge3.Update values ≠ merge3.Origin values)
          then walk.Updated nodes else walk.Dest nodes, None) σ
  end.
Proof.
  intros Hu Hd Eu Eo. run_rule. rewrite Hu, Hd, Eu, Eo. simpl.
  rewrite getStrValues_run.
  destruct (strValuesOf nodes σ) as [values [e|]]; simpl; [done|].
  by case_bool_decide.
Qed.



(** C2: an associative-list item that is non-empty in Origin and
    absent (empty) in Updated is cleared, whatever Dest holds. *)
Theorem visitAList_deletion_propagates m nodes σ :
  IsEmpty σ (walk.Updated nodes) = true →
  IsEmpty σ (walk.Origin nodes) = false →
  merge3.visitAList m nodes σ = Ok (walk.ClearNode, None) σ.
Proof. intros Eu Eo. run_rule. by rewrite Eu, Eo. Qed.

(** C3 (as amended): scalar no-op law.  Origin and Updated are both
    present (non-empty, Updated not an explicit null) with the same
    literal value [v], and Dest is not an explicit null: the scalar
    rule returns exactly Dest, whatever Dest is. *)
Theorem VisitScalar_noop m nodes σ (v : string) :
  IsNull σ (walk.Updated nodes) = false →
  IsNull σ (walk.Dest nodes) = false →
  IsEmpty σ (walk.Updated nodes) = false →
  IsEmpty σ (walk.Origin nodes) = false →
  valueOf σ (walk.Updated nodes) = Some v →
  valueOf σ (walk.Origin nodes) = Some v →
  merge3.VisitScalar m nodes σ = Ok (walk.Dest nodes, None) σ.
Proof.
  intros Hu Hd Eu Eo Vu Vo. unfold valueOf in Vu, Vo.
  destruct (nodeOf σ (walk.Updated nodes)) as [u|] eqn:Nu; [|done].
  destruct (nodeOf σ (walk.Origin nodes)) as [o|] eqn:No; [|done].
  simpl in Vu, Vo.
  rewrite (VisitScalar_compare m nodes σ u o) by done.
  rewrite bool_decide_eq_false_2; [done|]. intros Hne. congruence.
Qed.

(** C4 (as amended): scalar fast-forward law.  Updated is present and
    not an explicit null, Dest is not an explicit null, and the
    literal values [vu] of Updated and [vo] of Origin differ: the
    scalar rule returns Updated, whatever Dest is. *)
Theorem VisitScalar_fast_forward m nodes σ (vu vo : string) :
  IsNull σ (walk.Updated nodes) = false →
  IsNull σ (walk.Dest nodes) = false →
  IsEmpty σ (walk.Updated nodes) = false →
  valueOf σ (walk.Updated nodes) = Some vu →
  valueOf σ (walk.Origin nodes) = Some vo →
  vu ≠ vo →
  merge3.VisitScalar m nodes σ = Ok (walk.Updated nodes, None) σ.
Proof.
  intros Hu Hd Eu Vu Vo Hne. unfold valueOf in Vu, Vo.
  destruct (nodeOf σ (walk.Updated nodes)) as [u|] eqn:Nu; [|done].
  destruct (nodeOf σ (walk.Origin nodes)) as [o|] eqn:No; [|done].
  simpl in Vu, Vo.
  destruct (IsEmpty σ (walk.Origin nodes)) eqn:Eo.
  - run_rule. by rewrite Hu, Hd, Eu, Eo.
  - rewrite (VisitScalar_compare m nodes σ u o) by done.
    rewrite bool_decide_eq_true_2; [done|]. congruence.
Qed.

(** C5 (as amended): Origin and Updated are both present, neither
    Updated nor Dest is an explicit null, and the three nodes render:
    [uStr], [oStr] and [dStr] are the canonical forms of Updated,
    Origin and Dest.  The non-associative-list rule returns Updated
    when [uStr] and [oStr] differ and Dest when they are equal, with
    a nil error and the store as it was. *)
Theorem visitNAList_compares_canonical m nodes σ (uStr oStr dStr : string) :
  IsNull σ (walk.Updated nodes) = false →
  IsNull σ (walk.Dest nodes) = false →
  IsEmpty σ (walk.Updated nodes) = false →
  IsEmpty σ (walk.Origin nodes) = false →
  canonical σ (walk.Updated nodes) = (uStr, None) →
  canonical (flowStyled (walk.Updated nodes) σ) (walk.Origin nodes) = (oStr, None) →
  canonical (flowStyled (walk.Origin nodes) (flowStyled (walk.Updated nodes) σ))
            (walk.Dest nodes) = (dStr, None) →
  merge3.visitNAList m nodes σ =
  Ok (if bool_decide (uStr ≠ oStr) then walk.Updated nodes else walk.Dest nodes,
      None) σ.
Proof.
  intros Hu Hd Eu Eo Cu Co Cd.
  rewrite visitNAList_compare by done.
  unfold strValuesOf. by rewrite Cu, Co, Cd.
Qed.


(** C9: Origin, Updated and Dest are all absent (empty), and the
    Clear sentinel exists in the store.  The associative-list rule
    returns, with a nil error, a reference at a new address to a new
    cell holding a list without children, which is not the Clear
    sentinel; on the same sources the map rule returns Clear. *)
Theorem visitAList_all_absent_seed m nodes σ :
  IsEmpty σ (walk.Origin nodes) = true →
  IsEmpty σ (walk.Updated nodes) = true →
  IsEmpty σ (walk.Dest nodes) = true →
  allocated σ walk.ClearNode →
  (∃ a y σ',
     merge3.visitAList m nodes σ = Ok (Some a, None) σ'
     ∧ rnodes σ' = <[a := mkRNode (Some y)]> (rnodes σ)
     ∧ ynodes σ' = <[y := NodeOfKind SequenceNode]> (ynodes σ)
     ∧ nodeOf σ' (Some a) = Some (NodeOfKind SequenceNode)
     ∧ (a ∉ dom (rnodes σ)) ∧ (y ∉ dom (ynodes σ))
     ∧ Some a ≠ walk.ClearNode)
  ∧ merge3.VisitMap m nodes σ = Ok (walk.ClearNode, None) σ.
Proof.
  intros Eo Eu Ed Hc. split.
  - destruct (seed_fresh SequenceNode σ) as (a & y & σ' & Hrun & Ha & Hy & Hr & Hn & Hs).
    destruct (allocated_not_fresh σ walk.ClearNode a y Hc Ha Hy) as [Hne _].
    exists a, y, σ'. split_and!; try done.
    rewrite <- Hrun. run_rule. by rewrite Eo, Eu, Ed.
  - run_rule. rewrite Ed, Eu.
    by destruct (IsNull σ (walk.Updated nodes) || IsNull σ (walk.Dest nodes)).
Qed.

(** C10 (as amended): the scalar rule detects a change by the literal
    value strings alone.  Origin and Updated are both present and not
    explicit nulls, Dest is not an explicit null, and the nodes [u]
    of Updated and [o] of Origin carry the same [Value]: the rule
    returns Dest, whatever the tags, comments and styles of [u] and
    [o] are. *)
Theorem VisitScalar_value_only m nodes σ (u o : Node) :
  IsNull σ (walk.Updated nodes) = false →
  IsNull σ (walk.Origin nodes) = false →
  IsNull σ (walk.Dest nodes) = false →
  IsEmpty σ (walk.Updated nodes) = false →
  IsEmpty σ (walk.Origin nodes) = false →
  nodeOf σ (walk.Updated nodes) = Some u →
  nodeOf σ (walk.Origin nodes) = Some o →
  Value u = Value o →
  merge3.VisitScalar m nodes σ = Ok (walk.Dest nodes, None) σ.
Proof.
  intros Hu _ Hd Eu Eo Nu No Hv.
  rewrite (VisitScalar_compare m nodes σ u o) by done.
  by rewrite bool_decide_eq_false_2 by (intros Hne; congruence).
Qed.


(** The rules that build or pick a node without reading one return
    with a nil error on every store. *)
Lemma VisitMap_no_error m nodes σ :
  ∃ r σ', merge3.VisitMap m nodes σ = Ok (r, None) σ'.
Proof.
  run_rule.
  destruct (IsNull σ (walk.Updated nodes) || IsNull σ (walk.Dest nodes)); [by eauto|].
  destruct (IsEmpty σ (walk.Dest nodes) && IsEmpty σ (walk.Updated nodes)); [by eauto|].
  destruct (IsEmpty σ (walk.Dest nodes)); by eauto.
Qed.

Lemma visitAList_no_error m nodes σ :
  ∃ r σ', merge3.visitAList m nodes σ = Ok (r, None) σ'.
Proof.
  run_rule.
  destruct (IsEmpty σ (walk.Updated nodes) && negb (IsEmpty σ (walk.Origin nodes)));
    [by eauto|].
  destruct (IsEmpty σ (walk.Dest nodes)); by eauto.
Qed.

(** The scalar rule reads the literal values only past its emptiness
    tests: it returns with a nil error as soon as no reference
    without a node passes for non-empty. *)
Lemma VisitScalar_no_error m nodes σ :
  (IsEmpty σ (walk.Updated nodes) = false → ynodeOf σ (walk.Updated nodes) ≠ None) →
  (IsEmpty σ (walk.Origin nodes) = false → ynodeOf σ (walk.Origin nodes) ≠ None) →
  ∃ r, merge3.VisitScalar m nodes σ = Ok (r, None) σ.
Proof.
  intros HU HO.
  destruct (IsNull σ (walk.Updated nodes) || IsNull σ (walk.Dest nodes)) eqn:En.
  { rewrite VisitScalar_null by done. by eauto. }
  apply orb_false_iff in En as [Hu Hd].
  destruct (IsEmpty σ (walk.Updated nodes)) eqn:Eu,
           (IsEmpty σ (walk.Origin nodes)) eqn:Eo;
    try (run_rule; rewrite Hu, Hd, Eu, Eo; by eauto).
  destruct (ynodeOf σ (walk.Updated nodes)) as [yu|] eqn:Yu; [|by destruct HU].
  destruct (ynodeOf σ (walk.Origin nodes)) as [yo|] eqn:Yo; [|by destruct HO].
  rewrite (VisitScalar_compare m nodes σ (ynodes σ !!! yu) (ynodes σ !!! yo));
    try done; [by eauto | |]; unfold nodeOf.
  - by rewrite Yu.
  - by rewrite Yo.
Qed.

Lemma VisitScalar_error_nil m nodes σ r e σ' :
  merge3.VisitScalar m nodes σ = Ok (r, e) σ' → e = None.
Proof.
  run_rule.
  destruct (IsNull σ (walk.Updated nodes) || IsNull σ (walk.Dest nodes)); [congruence|].
  destruct (negb _); [congruence|].
  destruct (IsEmpty σ (walk.Updated nodes) && IsEmpty σ (walk.Origin nodes)); [congruence|].
  rewrite YNode_run.
  destruct (ynodeOf σ (walk.Updated nodes)); simpl; [|done].
  rewrite YNode_run.
  destruct (ynodeOf σ (walk.Origin nodes)); simpl; [|done].
  case_bool_decide; congruence.
Qed.

(** An error of the non-associative-list rule comes with no node and
    is the error of a rendering. *)
Lemma visitNAList_error m nodes σ r e σ' :
  merge3.visitNAList m nodes σ = Ok (r, Some e) σ' →
  r = None
  ∧ ∃ σ'' rn str,
      rn ∈ [walk.Updated nodes; walk.Origin nodes; walk.Dest nodes]
      ∧ String σ'' rn = (str, Some e).
Proof.
  run_rule.
  destruct (IsNull σ (walk.Updated nodes) || IsNull σ (walk.Dest nodes)); [congruence|].
  destruct (negb _); [congruence|].
  destruct (IsEmpty σ (walk.Updated nodes) && IsEmpty σ (walk.Origin nodes)); [congruence|].
  rewrite getStrValues_run.
  destruct (strValuesOf nodes σ) as [values [e'|]] eqn:Es; simpl.
  - intros [= <- <- <-]. split; [done|].
    apply (strValuesOf_error nodes σ). by rewrite Es.
  - case_bool_decide; congruence.
Qed.

End Rules.

(** ** Which rules can fail *)

(** C8: on every store and for every triple, the map rule and the
    associative-list rule return with a nil error, and so does the
    scalar rule whenever it returns (it does as soon as no reference
    without a node passes for non-empty); an error of the
    non-associative-list rule is the error of rendering one of the
    three nodes, and such an error does occur: on the model, with an
    Updated list that holds a cell of no kind. *)
Theorem only_visitNAList_fails :
  (∀ (Y : YamlAPI) (W : walk.WalkAPI) (m : merge3.Visitor) (nodes : walk.Sources)
     (σ : State),
     (∃ r σ', merge3.VisitMap m nodes σ = Ok (r, None) σ')
     ∧ (∃ r σ', merge3.visitAList m nodes σ = Ok (r, None) σ')
     ∧ (∀ r e σ', merge3.VisitScalar m nodes σ = Ok (r, e) σ' → e = None)
     ∧ ((IsEmpty σ (walk.Updated nodes) = false → ynodeOf σ (walk.Updated nodes) ≠ None) →
        (IsEmpty σ (walk.Origin nodes) = false → ynodeOf σ (walk.Origin nodes) ≠ None) →
        ∃ r, merge3.VisitScalar m nodes σ = Ok (r, None) σ)
     ∧ (∀ r e σ', merge3.visitNAList m nodes σ = Ok (r, Some e) σ' →
          r = None
          ∧ ∃ σ'' rn str,
              rn ∈ [walk.Updated nodes; walk.Origin nodes; walk.Dest nodes]
              ∧ String σ'' rn = (str, Some e)))
  ∧ (∃ e, model.visitNAList model.brokenUpdate model.docs
          = Ok (None, Some e) model.docs).
Proof.
  split.
  - intros Y W m nodes σ. split_and!.
    + apply VisitMap_no_error.
    + apply visitAList_no_error.
    + apply VisitScalar_error_nil.
    + apply VisitScalar_no_error.
    + apply visitNAList_error.
  - exists "cannot encode node". vm_compute. reflexivity.
Qed.

(** ** The rules on the documents of the model *)

Section OnTheModel.
Import model.
#[local] Existing Instances yamlAPI walkAPI.



(** The item [{a: 1}] is in Origin and in Dest, and gone from
    Updated. *)
Lemma visitAList_deletion_propagates_witness :
  visitAList deletedItem docs = Ok (Some clearAddr, None) docs.
Proof.
  apply (@visitAList_deletion_propagates yamlAPI walkAPI merge3.mkVisitor
           deletedItem docs);
    vm_compute; reflexivity.
Defined.

(** C3, as stated, fails when Dest is an explicit null: Origin and
    Updated are the scalar [1]; the scalar rule returns no value, not
    Dest. *)
Lemma VisitScalar_noop_null_dest :
  IsEmpty docs (walk.Origin sameNullDest) = false
  ∧ IsEmpty docs (walk.Updated sameNullDest) = false
  ∧ IsNull docs (walk.Updated sameNullDest) = false
  ∧ valueOf docs (walk.Origin sameNullDest) = valueOf docs (walk.Updated sameNullDest)
  ∧ VisitScalar sameNullDest docs = Ok (None, None) docs
  ∧ VisitScalar sameNullDest docs ≠ Ok (walk.Dest sameNullDest, None) docs.
Proof. vm_compute. split_and!; try reflexivity. discriminate. Qed.

Lemma VisitScalar_noop_witness :
  VisitScalar sameScalar docs = Ok (two, None) docs.
Proof.
  apply (@VisitScalar_noop yamlAPI merge3.mkVisitor sameScalar docs "1");
    vm_compute; reflexivity.
Defined.

(** C4, as stated, fails when Dest is an explicit null: Origin is
    [1] and Updated is [2]; the scalar rule returns no value, not
    Updated. *)
Lemma VisitScalar_fast_forward_null_dest :
  valueOf docs (walk.Origin changedNullDest) = Some "1"
  ∧ valueOf docs (walk.Updated changedNullDest) = Some "2"
  ∧ VisitScalar changedNullDest docs = Ok (None, None) docs
  ∧ VisitScalar changedNullDest docs ≠ Ok (walk.Updated changedNullDest, None) docs.
Proof. vm_compute. split_and!; try reflexivity. discriminate. Qed.

(** Dest [a] differs from Origin [1] and from Updated [2]. *)
Lemma VisitScalar_fast_forward_witness :
  VisitScalar changedScalar docs = Ok (two, None) docs.
Proof.
  apply (@VisitScalar_fast_forward yamlAPI merge3.mkVisitor changedScalar docs "2" "1");
    vm_compute; (reflexivity || discriminate).
Defined.

(** C5, as stated, fails when Dest is an explicit null: Origin
    [[1, 2]] is present and not null, and Updated is the same list in
    flow style (equal canonical forms) or the list [[2]] (different
    ones); the rule returns the Clear sentinel, neither Dest nor
    Updated. *)
Lemma visitNAList_null_dest_clears :
  (canonical docs flow12).1 = (canonical docs list12).1
  ∧ visitNAList restyledNullDest docs = Ok (Some clearAddr, None) docs
  ∧ visitNAList restyledNullDest docs ≠ Ok (walk.Dest restyledNullDest, None) docs
  ∧ (canonical docs list2).1 ≠ (canonical docs list12).1
  ∧ visitNAList shorterNullDest docs = Ok (Some clearAddr, None) docs
  ∧ visitNAList shorterNullDest docs ≠ Ok (walk.Updated shorterNullDest, None) docs.
Proof. vm_compute. split_and!; try reflexivity; discriminate. Qed.

(** Updated is Origin's list [[1, 2]] in flow style: the canonical
    forms agree and Dest [[2]] is kept. *)
Lemma visitNAList_compares_canonical_witness :
  visitNAList restyledList docs = Ok (list2, None) docs.
Proof.
  apply (@visitNAList_compares_canonical yamlAPI walkAPI merge3.mkVisitor restyledList docs
           "[1, 2]" "[1, 2]" "[2]");
    vm_compute; reflexivity.
Defined.

(** Rendering depends on the stored style: the block list and the
    flow list differ as stored and agree in canonical form, and a
    scalar is quoted in canonical form only. *)
Lemma String_follows_style :
  String docs list12 = ("- 1" ++ newline ++ "- 2", None)
  ∧ String docs flow12 = ("[1, 2]", None)
  ∧ canonical docs list12 = ("[1, 2]", None)
  ∧ canonical docs flow12 = ("[1, 2]", None)
  ∧ String docs one = ("1", None)
  ∧ canonical docs one = ("'1'", None).
Proof. vm_compute. by split_and!. Qed.

(** The comparator on documents: a success with all three references
    aliased, and a failure on the third node, after three deferred
    restorations have been registered.  The store comes back as it
    was. *)
Lemma getStrValues_aliased :
  getStrValues aliased docs
  = Ok (merge3.mkStrValues "[1, 2]" "[1, 2]" "[1, 2]", None) docs.
Proof. vm_compute. reflexivity. Qed.

Lemma getStrValues_broken_dest :
  getStrValues brokenDest docs
  = Ok (merge3.mkStrValues "" "" "", Some "cannot encode node") docs.
Proof. vm_compute. reflexivity. Qed.


Lemma visitAList_all_absent_seed_witness :
  (∃ a σ', visitAList allAbsent docs = Ok (Some a, None) σ'
           ∧ nodeOf σ' (Some a) = Some (NodeOfKind SequenceNode)
           ∧ Some a ≠ Some clearAddr)
  ∧ VisitMap allAbsent docs = Ok (Some clearAddr, None) docs.
Proof.
  destruct (@visitAList_all_absent_seed yamlAPI walkAPI merge3.mkVisitor allAbsent docs)
    as [(a & y & σ' & Hrun & _ & _ & Hn & _ & _ & Hc) Hmap];
    try (vm_compute; reflexivity).
  { eapply allocated_intro; [vm_compute; reflexivity|]. intros y' [=]. }
  split; [|exact Hmap].
  exists a, σ'. by split_and!.
Defined.

(** C10, as stated, fails when Dest is an explicit null: Origin [1]
    and Updated ["1"] are present, not null, and carry the same value
    string under different tags, styles and comments; the scalar rule
    returns no value, not Dest. *)
Lemma VisitScalar_value_only_null_dest :
  (IsEmpty docs one = false ∧ IsNull docs one = false)
  ∧ (IsEmpty docs oneQuoted = false ∧ IsNull docs oneQuoted = false)
  ∧ valueOf docs one = valueOf docs oneQuoted
  ∧ VisitScalar requotedNullDest docs = Ok (None, None) docs
  ∧ VisitScalar requotedNullDest docs ≠ Ok (walk.Dest requotedNullDest, None) docs.
Proof. vm_compute. split_and!; try reflexivity. discriminate. Qed.

(** Origin [1] is a plain integer; Updated ["1"] is a double-quoted,
    commented string with the same value. *)
Lemma VisitScalar_value_only_witness :
  (∃ u o, nodeOf docs oneQuoted = Some u ∧ nodeOf docs one = Some o
          ∧ Tag u ≠ Tag o ∧ Style u ≠ Style o ∧ LineComment u ≠ LineComment o)
  ∧ VisitScalar requotedScalar docs = Ok (keyA, None) docs.
Proof.
  split.
  - do 2 eexists. split_and!; [vm_compute; reflexivity | vm_compute; reflexivity | ..];
      vm_compute; discriminate.
  - apply (@VisitScalar_value_only yamlAPI merge3.mkVisitor requotedScalar docs
             (scalarNode DoubleQuotedStyle "!!str" "1" "# one")
             (scalarNode 0 "!!int" "1" ""));
      vm_compute; reflexivity.
Defined.

End OnTheModel.

(** * Further properties of the rules *)

Section Branches.
Context `{!YamlAPI, !walk.WalkAPI}.
Implicit Types (m : merge3.Visitor) (nodes : walk.Sources) (σ : State).

(** The ways out of each rule. *)
Lemma VisitMap_cases m nodes σ :
  merge3.VisitMap m nodes σ = Ok (walk.ClearNode, None) σ
  ∨ merge3.VisitMap m nodes σ = Ok (walk.Dest nodes, None) σ
  ∨ merge3.VisitMap m nodes σ = newSeed MappingNode σ.
Proof.
  run_rule.
  destruct (IsNull σ (walk.Updated nodes) || IsNull σ (walk.Dest nodes)); [by left|].
  destruct (IsEmpty σ (walk.Dest nodes) && IsEmpty σ (walk.Updated nodes)); [by left|].
  destruct (IsEmpty σ (walk.Dest nodes)); [by right; right | by right; left].
Qed.

Lemma visitAList_cases m nodes σ :
  merge3.visitAList m nodes σ = Ok (walk.ClearNode, None) σ
  ∨ merge3.visitAList m nodes σ = Ok (walk.Dest nodes, None) σ
  ∨ merge3.visitAList m nodes σ = newSeed SequenceNode σ.
Proof.
  run_rule.
  destruct (IsEmpty σ (walk.Updated nodes) && negb (IsEmpty σ (walk.Origin nodes)));
    [by left|].
  destruct (IsEmpty σ (walk.Dest nodes)); [by right; right | by right; left].
Qed.

Lemma VisitScalar_cases m nodes σ :
  merge3.VisitScalar m nodes σ = Ok (None, None) σ
  ∨ merge3.VisitScalar m nodes σ = Ok (walk.Updated nodes, None) σ
  ∨ merge3.VisitScalar m nodes σ = Ok (walk.Dest nodes, None) σ
  ∨ merge3.VisitScalar m nodes σ = Panic σ.
Proof.
  run_rule.
  destruct (IsNull σ (walk.Updated nodes) || IsNull σ (walk.Dest nodes)); [by left|].
  destruct (negb _); [by right; left|].
  destruct (IsEmpty σ (walk.Updated nodes) && IsEmpty σ (walk.Origin nodes));
    [by right; right; left|].
  rewrite YNode_run.
  destruct (ynodeOf σ (walk.Updated nodes)); simpl; [|by repeat right].
  rewrite YNode_run.
  destruct (ynodeOf σ (walk.Origin nodes)); simpl; [|by repeat right].
  case_bool_decide; [by right; left | by right; right; left].
Qed.

Lemma visitNAList_cases m nodes σ :
  merge3.visitNAList m nodes σ = Ok (walk.ClearNode, None) σ
  ∨ merge3.visitNAList m nodes σ = Ok (walk.Updated nodes, None) σ
  ∨ merge3.visitNAList m nodes σ = Ok (walk.Dest nodes, None) σ
  ∨ ∃ e, merge3.visitNAList m nodes σ = Ok (None, Some e) σ.
Proof.
  run_rule.
  destruct (IsNull σ (walk.Updated nodes) || IsNull σ (walk.Dest nodes)); [by left|].
  destruct (negb _); [by right; left|].
  destruct (IsEmpty σ (walk.Updated nodes) && IsEmpty σ (walk.Origin nodes));
    [by right; right; left|].
  rewrite getStrValues_run.
  destruct (strValuesOf nodes σ) as [values [e|]]; simpl.
  - repeat right. by exists e.
  - case_bool_decide; [by right; left | by right; right; left].
Qed.

(** X1: neither Updated nor Dest is an explicit null and exactly one of
    Updated and Origin is empty (the value was added or removed
    upstream).  The scalar rule and the non-associative-list rule, also
    through the list dispatcher, return Updated with a nil error and
    the store as it was, whatever Dest is; the comparator is not
    run. *)
Theorem added_or_removed_takes_updated m nodes σ :
  IsNull σ (walk.Updated nodes) = false →
  IsNull σ (walk.Dest nodes) = false →
  IsEmpty σ (walk.Updated nodes) ≠ IsEmpty σ (walk.Origin nodes) →
  merge3.VisitScalar m nodes σ = Ok (walk.Updated nodes, None) σ
  ∧ merge3.visitNAList m nodes σ = Ok (walk.Updated nodes, None) σ
  ∧ merge3.VisitList m nodes walk.NonAssociateList σ = Ok (walk.Updated nodes, None) σ.
Proof.
  intros Hu Hd Hne. unfold merge3.VisitList. simpl. run_rule. rewrite Hu, Hd. simpl.
  destruct (IsEmpty σ (walk.Updated nodes)), (IsEmpty σ (walk.Origin nodes));
    by try congruence.
Qed.

(** X2: neither Updated nor Dest is an explicit null and Updated and
    Origin are both empty (the value exists locally only).  The scalar
    rule and the non-associative-list rule, also through the list
    dispatcher, return Dest with a nil error and the store as it
    was. *)
Theorem local_only_keeps_dest m nodes σ :
  IsNull σ (walk.Updated nodes) = false →
  IsNull σ (walk.Dest nodes) = false →
  IsEmpty σ (walk.Updated nodes) = true →
  IsEmpty σ (walk.Origin nodes) = true →
  merge3.VisitScalar m nodes σ = Ok (walk.Dest nodes, None) σ
  ∧ merge3.visitNAList m nodes σ = Ok (walk.Dest nodes, None) σ
  ∧ merge3.VisitList m nodes walk.NonAssociateList σ = Ok (walk.Dest nodes, None) σ.
Proof.
  intros Hu Hd Eu Eo. unfold merge3.VisitList. simpl. run_rule.
  by rewrite Hu, Hd, Eu, Eo.
Qed.

(** X3: Dest is non-empty, neither Updated nor Dest is an explicit
    null, and the item was not deleted upstream (Updated is non-empty
    or Origin is empty).  The map rule and the associative-list rule,
    also through the list dispatcher, return the reference Dest itself
    as the seed of the recursive merge, with a nil error, and allocate
    nothing. *)
Theorem dest_is_the_seed m nodes σ :
  IsEmpty σ (walk.Dest nodes) = false →
  IsNull σ (walk.Updated nodes) = false →
  IsNull σ (walk.Dest nodes) = false →
  IsEmpty σ (walk.Updated nodes) && negb (IsEmpty σ (walk.Origin nodes)) = false →
  merge3.VisitMap m nodes σ = Ok (walk.Dest nodes, None) σ
  ∧ merge3.visitAList m nodes σ = Ok (walk.Dest nodes, None) σ
  ∧ merge3.VisitList m nodes walk.AssociativeList σ = Ok (walk.Dest nodes, None) σ.
Proof.
  intros Ed Hu Hd Edel. unfold merge3.VisitList. simpl. run_rule.
  by rewrite Hu, Hd, Ed, Edel.
Qed.

(** X4: Dest is empty and the item was not deleted upstream (Updated is
    non-empty or Origin is empty).  The associative-list rule returns,
    with a nil error, a reference at a new address [a] to a new cell
    [y] holding a list without children; the store is otherwise
    unchanged and the result is none of the references that exist in
    the store of the call, nor is its node any of theirs. *)
Theorem visitAList_fresh_seed m nodes σ :
  IsEmpty σ (walk.Updated nodes) && negb (IsEmpty σ (walk.Origin nodes)) = false →
  IsEmpty σ (walk.Dest nodes) = true →
  ∃ a y σ',
    merge3.visitAList m nodes σ = Ok (Some a, None) σ'
    ∧ rnodes σ' = <[a := mkRNode (Some y)]> (rnodes σ)
    ∧ ynodes σ' = <[y := NodeOfKind SequenceNode]> (ynodes σ)
    ∧ nodeOf σ' (Some a) = Some (NodeOfKind SequenceNode)
    ∧ (a ∉ dom (rnodes σ)) ∧ (y ∉ dom (ynodes σ))
    ∧ ∀ rn, allocated σ rn → rn ≠ Some a ∧ ynodeOf σ rn ≠ Some y.
Proof.
  intros Edel Ed.
  destruct (seed_fresh SequenceNode σ) as (a & y & σ' & Hrun & Ha & Hy & Hr & Hn & Hs).
  exists a, y, σ'. split_and!; try done.
  - rewrite <- Hrun. run_rule. by rewrite Edel, Ed.
  - intros rn Hrn. by apply allocated_not_fresh.
Qed.

(** X5: an item that is non-empty in Origin and in Dest and empty in
    Updated, with no explicit null on either side: the associative-list
    rule clears it, while the map rule keeps Dest as the seed.  The map
    rule does not read Origin at all: its outcome is the same for every
    Origin. *)
Theorem upstream_deletion_list_clears_map_keeps m nodes σ :
  IsEmpty σ (walk.Updated nodes) = true →
  IsEmpty σ (walk.Origin nodes) = false →
  IsEmpty σ (walk.Dest nodes) = false →
  IsNull σ (walk.Updated nodes) = false →
  IsNull σ (walk.Dest nodes) = false →
  merge3.visitAList m nodes σ = Ok (walk.ClearNode, None) σ
  ∧ merge3.VisitMap m nodes σ = Ok (walk.Dest nodes, None) σ
  ∧ ∀ o, merge3.VisitMap m (walk.mkSources o (walk.Updated nodes) (walk.Dest nodes)) σ
         = merge3.VisitMap m nodes σ.
Proof.
  intros Eu Eo Ed Hu Hd. split_and!.
  - run_rule. by rewrite Eu, Eo.
  - run_rule. by rewrite Hu, Hd, Ed.
  - done.
Qed.

End Branches.

(** ** What the rules return and what they leave behind *)

Section Frame.
Context `{!YamlAPI, !walk.WalkAPI}.
Implicit Types (m : merge3.Visitor) (nodes : walk.Sources) (σ : State).

(** A store that extends another reads the same behind every reference
    that exists in the smaller one. *)
Lemma ynodeOf_extends σ σ' (rn : RNodePtr) :
  rnodes σ ⊆ rnodes σ' → allocated σ rn → ynodeOf σ' rn = ynodeOf σ rn.
Proof.
  intros Hr Hal. destruct rn as [a|]; [|done]. destruct Hal as [Ha _].
  apply elem_of_dom in Ha as [r Hr1]. simpl.
  rewrite (lookup_total_correct _ _ _ Hr1).
  by rewrite (lookup_total_correct _ _ _ (lookup_weaken _ _ _ _ Hr1 Hr)).
Qed.

Lemma nodeOf_extends σ σ' (rn : RNodePtr) :
  ynodes σ ⊆ ynodes σ' → rnodes σ ⊆ rnodes σ' → allocated σ rn →
  nodeOf σ' rn = nodeOf σ rn.
Proof.
  intros Hy Hr Hal. unfold nodeOf. rewrite (ynodeOf_extends σ σ') by done.
  destruct rn as [a|]; [|done]. destruct Hal as [_ Hal].
  destruct (ynodeOf σ (Some a)) as [y|]; [|done]. simpl.
  apply elem_of_dom in Hal as [n Hn].
  rewrite (lookup_total_correct _ _ _ Hn).
  by rewrite (lookup_total_correct _ _ _ (lookup_weaken _ _ _ _ Hn Hy)).
Qed.

Lemma allocated_extends σ σ' (rn : RNodePtr) :
  ynodes σ ⊆ ynodes σ' → rnodes σ ⊆ rnodes σ' → allocated σ rn → allocated σ' rn.
Proof.
  intros Hy Hr Hal. pose proof (ynodeOf_extends σ σ' rn Hr Hal) as E.
  destruct rn as [a|]; [|done]. destruct Hal as [Ha Hn]. split.
  - by apply (subseteq_dom _ _ Hr).
  - rewrite E. destruct (ynodeOf σ (Some a)); [|done].
    by apply (subseteq_dom _ _ Hy).
Qed.

(** The seed extends the store, is new in it, and exists in the store
    it comes with. *)
Lemma newSeed_extends (k : NodeKind) σ :
  ∃ a σ',
    newSeed k σ = Ok (Some a, None) σ'
    ∧ (a ∉ dom (rnodes σ))
    ∧ ynodes σ ⊆ ynodes σ' ∧ rnodes σ ⊆ rnodes σ'
    ∧ allocated σ' (Some a).
Proof.
  destruct (seed_fresh k σ) as (a & y & σ' & Hrun & Ha & Hy & Hr & Hn & Hs).
  exists a, σ'. split_and!; try done.
  - rewrite Hn. by apply insert_subseteq, not_elem_of_dom.
  - rewrite Hr. by apply insert_subseteq, not_elem_of_dom.
  - eapply allocated_intro.
    + rewrite Hr. apply lookup_insert_eq.
    + simpl. intros y' [= <-]. rewrite Hn, lookup_insert_eq. by eexists.
Qed.

(** X6: the reference a rule returns is never taken from Origin.  The
    map rule and the associative-list rule return the Clear sentinel,
    Dest, or a reference that did not exist in the store of the call;
    the scalar rule returns no value, Updated or Dest; the
    non-associative-list rule returns the Clear sentinel, Updated,
    Dest, or no node together with an error. *)
Theorem rules_return_clear_updated_dest_or_seed m nodes σ :
  (∀ r e σ', merge3.VisitMap m nodes σ = Ok (r, e) σ' →
     r = walk.ClearNode ∨ r = walk.Dest nodes
     ∨ ∃ a, r = Some a ∧ a ∉ dom (rnodes σ))
  ∧ (∀ r e σ', merge3.visitAList m nodes σ = Ok (r, e) σ' →
       r = walk.ClearNode ∨ r = walk.Dest nodes
       ∨ ∃ a, r = Some a ∧ a ∉ dom (rnodes σ))
  ∧ (∀ r e σ', merge3.VisitScalar m nodes σ = Ok (r, e) σ' →
       r = None ∨ r = walk.Updated nodes ∨ r = walk.Dest nodes)
  ∧ (∀ r e σ', merge3.visitNAList m nodes σ = Ok (r, e) σ' →
       r = walk.ClearNode ∨ r = walk.Updated nodes ∨ r = walk.Dest nodes
       ∨ (r = None ∧ e ≠ None)).
Proof.
  split_and!; intros r e σ'.
  - destruct (VisitMap_cases m nodes σ) as [-> | [-> | ->]];
      [intros [= <- _ _]; by left | intros [= <- _ _]; by right; left |].
    destruct (newSeed_extends MappingNode σ) as (a & σ1 & -> & Ha & _).
    intros [= <- _ _]. right; right. by exists a.
  - destruct (visitAList_cases m nodes σ) as [-> | [-> | ->]];
      [intros [= <- _ _]; by left | intros [= <- _ _]; by right; left |].
    destruct (newSeed_extends SequenceNode σ) as (a & σ1 & -> & Ha & _).
    intros [= <- _ _]. right; right. by exists a.
  - destruct (VisitScalar_cases m nodes σ) as [-> | [-> | [-> | ->]]];
      intros [= <- _ _]; auto.
  - destruct (visitNAList_cases m nodes σ) as [-> | [-> | [-> | [e' ->]]]];
      intros [= <- <- _]; auto.
Qed.

(** X7: the scalar rule and the non-associative-list rule leave the
    store exactly as it was.  The non-associative-list rule always
    returns, with the store of the call, also when the comparator
    overrode styles and when a rendering failed; the scalar rule hands
    the store back unchanged whether it returns or panics. *)
Theorem comparing_rules_leave_store m nodes σ :
  (∃ r, merge3.visitNAList m nodes σ = Ok r σ)
  ∧ (∃ r, merge3.VisitList m nodes walk.NonAssociateList σ = Ok r σ)
  ∧ (∀ r σ', merge3.VisitScalar m nodes σ = Ok r σ' → σ' = σ)
  ∧ (∀ σ', merge3.VisitScalar m nodes σ = Panic σ' → σ' = σ).
Proof.
  assert (HN : ∃ r, merge3.visitNAList m nodes σ = Ok r σ).
  { destruct (visitNAList_cases m nodes σ) as [-> | [-> | [-> | [e ->]]]]; by eauto. }
  split_and!; [done | done | |];
    destruct (VisitScalar_cases m nodes σ) as [-> | [-> | [-> | ->]]]; congruence.
Qed.

(** X8: the map rule and the associative-list rule always return, with
    a nil error, and the store they return extends the store of the
    call: every cell and every wrapper is still there, unchanged, so
    the node behind each reference that existed reads as before. *)
Theorem seeding_rules_extend_store m nodes σ :
  (∃ r σ', merge3.VisitMap m nodes σ = Ok (r, None) σ'
           ∧ ynodes σ ⊆ ynodes σ' ∧ rnodes σ ⊆ rnodes σ'
           ∧ ∀ rn, allocated σ rn → nodeOf σ' rn = nodeOf σ rn)
  ∧ (∃ r σ', merge3.visitAList m nodes σ = Ok (r, None) σ'
             ∧ ynodes σ ⊆ ynodes σ' ∧ rnodes σ ⊆ rnodes σ'
             ∧ ∀ rn, allocated σ rn → nodeOf σ' rn = nodeOf σ rn).
Proof.
  split.
  - destruct (VisitMap_cases m nodes σ) as [-> | [-> | ->]];
      [by eexists _, σ | by eexists _, σ |].
    destruct (newSeed_extends MappingNode σ) as (a & σ1 & -> & _ & Hy & Hr & _).
    exists (Some a), σ1. split_and!; try done.
    intros rn Hrn. by apply nodeOf_extends.
  - destruct (visitAList_cases m nodes σ) as [-> | [-> | ->]];
      [by eexists _, σ | by eexists _, σ |].
    destruct (newSeed_extends SequenceNode σ) as (a & σ1 & -> & _ & Hy & Hr & _).
    exists (Some a), σ1. split_and!; try done.
    intros rn Hrn. by apply nodeOf_extends.
Qed.

(** X9: the list dispatcher always returns, for either kind of list,
    and an error comes from the non-associative side only: it comes
    with no node and with the store of the call. *)
Theorem VisitList_fails_on_non_associative_only m nodes (kind : walk.ListKind) σ :
  (∃ r σ', merge3.VisitList m nodes kind σ = Ok r σ')
  ∧ (∀ r e σ', merge3.VisitList m nodes kind σ = Ok (r, Some e) σ' →
       kind = walk.NonAssociateList ∧ r = None ∧ σ' = σ).
Proof.
  unfold merge3.VisitList. destruct kind; simpl.
  - split.
    + destruct (visitAList_no_error m nodes σ) as (r & σ' & ->). by eauto.
    + intros r e σ'. destruct (visitAList_no_error m nodes σ) as (r1 & σ1 & ->). done.
  - split.
    + destruct (visitNAList_cases m nodes σ) as [-> | [-> | [-> | [e ->]]]]; by eauto.
    + intros r e σ'.
      destruct (visitNAList_cases m nodes σ) as [-> | [-> | [-> | [e' ->]]]]; try done.
      by intros [= <- _ <-].
Qed.

(** X10: the references a rule returns exist in the store it returns,
    provided the Clear sentinel, Updated and Dest exist in the store of
    the call; in particular a seed is a wrapper of the returned store
    around a cell of the returned store. *)
Theorem rules_return_existing_references m nodes σ :
  allocated σ walk.ClearNode →
  allocated σ (walk.Updated nodes) →
  allocated σ (walk.Dest nodes) →
  (∀ r e σ', merge3.VisitMap m nodes σ = Ok (r, e) σ' → allocated σ' r)
  ∧ (∀ r e σ', merge3.visitAList m nodes σ = Ok (r, e) σ' → allocated σ' r)
  ∧ (∀ r e σ', merge3.VisitScalar m nodes σ = Ok (r, e) σ' → allocated σ' r)
  ∧ (∀ r e σ', merge3.visitNAList m nodes σ = Ok (r, e) σ' → allocated σ' r).
Proof.
  intros Hc Hu Hd. split_and!; intros r e σ'.
  - destruct (VisitMap_cases m nodes σ) as [-> | [-> | ->]];
      [by intros [= <- _ <-] | by intros [= <- _ <-] |].
    destruct (newSeed_extends MappingNode σ) as (a & σ1 & -> & _ & _ & _ & Hal).
    by intros [= <- _ <-].
  - destruct (visitAList_cases m nodes σ) as [-> | [-> | ->]];
      [by intros [= <- _ <-] | by intros [= <- _ <-] |].
    destruct (newSeed_extends SequenceNode σ) as (a & σ1 & -> & _ & _ & _ & Hal).
    by intros [= <- _ <-].
  - destruct (VisitScalar_cases m nodes σ) as [-> | [-> | [-> | ->]]];
      by intros [= <- _ <-].
  - destruct (visitNAList_cases m nodes σ) as [-> | [-> | [-> | [e' ->]]]];
      by intros [= <- _ <-].
Qed.

End Frame.

(** ** Edges of the scalar rule and of the comparator *)

Section Edges.
Context `{!YamlAPI, !walk.WalkAPI}.
Implicit Types (m : merge3.Visitor) (nodes : walk.Sources) (σ : State).

(** X11: the scalar rule reads [.Value] through [YNode()] without a
    nil test.  It panics exactly when its tests let the triple through
    to the comparison (no explicit null on Updated or Dest, Updated and
    Origin both non-empty) and Updated or Origin has no node; the store
    is then as it was. *)
Theorem VisitScalar_panics_iff m nodes σ σ' :
  merge3.VisitScalar m nodes σ = Panic σ'
  ↔ σ' = σ
    ∧ IsNull σ (walk.Updated nodes) || IsNull σ (walk.Dest nodes) = false
    ∧ IsEmpty σ (walk.Updated nodes) = false
    ∧ IsEmpty σ (walk.Origin nodes) = false
    ∧ (ynodeOf σ (walk.Updated nodes) = None ∨ ynodeOf σ (walk.Origin nodes) = None).
Proof.
  run_rule.
  destruct (IsNull σ (walk.Updated nodes) || IsNull σ (walk.Dest nodes));
    [split; [done | by intros (_ & ? & _)]|].
  destruct (IsEmpty σ (walk.Updated nodes)) eqn:Eu,
           (IsEmpty σ (walk.Origin nodes)) eqn:Eo; simpl;
    try (split; [done | by intros (_ & _ & ? & ? & _)]).
  rewrite YNode_run.
  destruct (ynodeOf σ (walk.Updated nodes)) as [yu|]; simpl.
  - rewrite YNode_run.
    destruct (ynodeOf σ (walk.Origin nodes)) as [yo|]; simpl.
    + case_bool_decide; (split; [done | by intros (_ & _ & _ & _ & [?|?])]).
    + split; [intros [= E]; subst; by split_and!; auto | by intros (-> & _)].
  - split; [intros [= E]; subst; by split_and!; auto | by intros (-> & _)].
Qed.

(** X12: the comparator reports the first rendering that fails, in the
    order Updated, Origin, Dest, together with empty strings: what was
    rendered before is dropped and the nodes after it are not looked
    at.  The store comes back as it was. *)
Theorem getStrValues_first_error_wins m nodes σ :
  (∀ s e, canonical σ (walk.Updated nodes) = (s, Some e) →
     merge3.getStrValues m nodes σ = Ok (merge3.mkStrValues "" "" "", Some e) σ)
  ∧ (∀ uStr s e,
       canonical σ (walk.Updated nodes) = (uStr, None) →
       canonical (flowStyled (walk.Updated nodes) σ) (walk.Origin nodes) = (s, Some e) →
       merge3.getStrValues m nodes σ = Ok (merge3.mkStrValues "" "" "", Some e) σ)
  ∧ (∀ uStr oStr s e,
       canonical σ (walk.Updated nodes) = (uStr, None) →
       canonical (flowStyled (walk.Updated nodes) σ) (walk.Origin nodes) = (oStr, None) →
       canonical (flowStyled (walk.Origin nodes) (flowStyled (walk.Updated nodes) σ))
                 (walk.Dest nodes) = (s, Some e) →
       merge3.getStrValues m nodes σ = Ok (merge3.mkStrValues "" "" "", Some e) σ).
Proof.
  split_and!; intros; rewrite getStrValues_run; unfold strValuesOf;
    repeat match goal with H : canonical _ _ = _ |- _ => rewrite H; clear H end; done.
Qed.

(** X13: the non-associative-list rule decides on the strings of
    Updated and Origin, yet it fails when Dest does not render: past
    its tests, with Updated and Origin rendered, a rendering error on
    Dest is returned with no node, whether the two strings agree or
    not. *)
Theorem visitNAList_fails_on_dest_rendering m nodes σ (uStr oStr s e : string) :
  IsNull σ (walk.Updated nodes) = false →
  IsNull σ (walk.Dest nodes) = false →
  IsEmpty σ (walk.Updated nodes) = false →
  IsEmpty σ (walk.Origin nodes) = false →
  canonical σ (walk.Updated nodes) = (uStr, None) →
  canonical (flowStyled (walk.Updated nodes) σ) (walk.Origin nodes) = (oStr, None) →
  canonical (flowStyled (walk.Origin nodes) (flowStyled (walk.Updated nodes) σ))
            (walk.Dest nodes) = (s, Some e) →
  merge3.visitNAList m nodes σ = Ok (None, Some e) σ.
Proof.
  intros Hu Hd Eu Eo Cu Co Cd. rewrite visitNAList_compare by done.
  unfold strValuesOf. by rewrite Cu, Co, Cd.
Qed.

(** X14: a reference without a node (a nil reference, or a wrapper
    around nil) is skipped by the comparator: it is not rendered and
    its string is empty.  With no node on any side the comparator
    returns three empty strings and a nil error, whatever [String]
    would make of the references. *)
Theorem getStrValues_skips_absent m nodes σ :
  ynodeOf σ (walk.Updated nodes) = None →
  ynodeOf σ (walk.Origin nodes) = None →
  ynodeOf σ (walk.Dest nodes) = None →
  merge3.getStrValues m nodes σ = Ok (merge3.mkStrValues "" "" "", None) σ.
Proof.
  intros Yu Yo Yd. rewrite getStrValues_run.
  assert (Hfl : ∀ rn σ1, ynodeOf σ1 rn = None → flowStyled rn σ1 = σ1).
  { intros rn σ1 E. unfold flowStyled. destruct rn; [|done]. by rewrite E. }
  assert (Hca : ∀ rn σ1, ynodeOf σ1 rn = None → canonical σ1 rn = ("", None)).
  { intros rn σ1 E. unfold canonical. destruct rn; [|done]. by rewrite E. }
  unfold strValuesOf. rewrite !Hfl by done. by rewrite !Hca by done.
Qed.

(** Overriding a style twice is overriding it once. *)
Lemma flowStyled_idem (rn : RNodePtr) σ :
  flowStyled rn (flowStyled rn σ) = flowStyled rn σ.
Proof.
  unfold flowStyled. destruct rn as [a|]; [|done].
  destruct (ynodeOf σ (Some a)) as [y|] eqn:Hy; [|by rewrite Hy].
  simpl in *. rewrite Hy. unfold styleStore. simpl. f_equal.
  rewrite alter_alter_eq. apply alter_ext. by intros [].
Qed.

Lemma canonical_flowStyled (rn : RNodePtr) σ :
  canonical (flowStyled rn σ) rn = canonical σ rn.
Proof.
  assert (E : ynodeOf (flowStyled rn σ) rn = ynodeOf σ rn).
  { unfold flowStyled. destruct rn as [a|]; [|done].
    by destruct (ynodeOf σ (Some a)) eqn:Hy. }
  unfold canonical. destruct rn as [a|]; [|done].
  by rewrite E, flowStyled_idem.
Qed.

(** X15: an update that changes nothing keeps the local value.  When
    Origin and Updated are one and the same reference and neither
    Updated nor Dest is an explicit null, the scalar rule returns Dest
    (given that a non-empty Updated has a node to read), and the
    non-associative-list rule returns Dest unless a rendering fails:
    it never returns Updated. *)
Theorem noop_update_keeps_dest m nodes σ :
  walk.Origin nodes = walk.Updated nodes →
  IsNull σ (walk.Updated nodes) = false →
  IsNull σ (walk.Dest nodes) = false →
  (IsEmpty σ (walk.Updated nodes) = false → ynodeOf σ (walk.Updated nodes) ≠ None) →
  merge3.VisitScalar m nodes σ = Ok (walk.Dest nodes, None) σ
  ∧ (merge3.visitNAList m nodes σ = Ok (walk.Dest nodes, None) σ
     ∨ ∃ e, merge3.visitNAList m nodes σ = Ok (None, Some e) σ).
Proof.
  intros EO Hu Hd Hy.
  destruct (IsEmpty σ (walk.Updated nodes)) eqn:Eu.
  { split; [|left]; run_rule; by rewrite EO, Hu, Hd, Eu. }
  split.
  - destruct (ynodeOf σ (walk.Updated nodes)) as [y|] eqn:Yu; [|by destruct Hy].
    rewrite (VisitScalar_compare m nodes σ (ynodes σ !!! y) (ynodes σ !!! y));
      try done; try (by rewrite EO); try (unfold nodeOf; by rewrite ?EO, Yu).
    by rewrite bool_decide_eq_false_2 by (intros Hne; by apply Hne).
  - rewrite visitNAList_compare by (by rewrite ?EO).
    unfold strValuesOf. rewrite EO, canonical_flowStyled, flowStyled_idem.
    destruct (canonical σ (walk.Updated nodes)) as [uStr [e|]]; [right; by eauto|].
    destruct (canonical _ (walk.Dest nodes)) as [dStr [e|]]; [right; by eauto|].
    left. simpl. by rewrite bool_decide_eq_false_2 by (intros Hne; by apply Hne).
Qed.

(** X16: the string the comparator reports for Updated is the
    rendering of Updated in the store where the cell of Updated has the
    style [FlowStyle | SingleQuotedStyle] in place of its own (the
    flags it had are not kept) and nothing else differs. *)
Theorem getStrValues_renders_updated_restyled m nodes σ (y : loc)
    (v : merge3.strValues) σ' :
  ynodeOf σ (walk.Updated nodes) = Some y →
  y ∈ dom (ynodes σ) →
  merge3.getStrValues m nodes σ = Ok (v, None) σ' →
  merge3.Update v
  = (String (mkState (<[y := withStyle (Z.lor FlowStyle SingleQuotedStyle)
                                       (ynodes σ !!! y)]> (ynodes σ))
                     (rnodes σ))
            (walk.Updated nodes)).1.
Proof.
  intros Yu Hy. rewrite getStrValues_run. unfold strValuesOf.
  assert (Hc : canonical σ (walk.Updated nodes)
               = String (mkState (<[y := withStyle (Z.lor FlowStyle SingleQuotedStyle)
                                               (ynodes σ !!! y)]> (ynodes σ))
                                 (rnodes σ)) (walk.Updated nodes)).
  { unfold canonical, flowStyled.
    destruct (walk.Updated nodes) as [a|]; [|done]. rewrite Yu.
    unfold styleStore. do 2 f_equal.
    apply elem_of_dom in Hy as [n Hn].
    rewrite (lookup_total_correct _ _ _ Hn).
    apply map_eq. intros i. rewrite lookup_alter, lookup_insert.
    case_decide; subst; by rewrite ?Hn. }
  rewrite Hc.
  destruct (String _ (walk.Updated nodes)) as [uStr [e|]]; [done|].
  destruct (canonical _ (walk.Origin nodes)) as [oStr [e|]]; [done|].
  destruct (canonical _ (walk.Dest nodes)) as [dStr [e|]]; [done|].
  by intros [= <- _].
Qed.

End Edges.

(** ** The further properties on the documents of the model *)

Section MoreOnTheModel.
Import model.
#[local] Existing Instances yamlAPI walkAPI.

(** The scalar [1] of Origin is gone from Updated and still in Dest:
    the absent Updated is returned. *)
Lemma added_or_removed_takes_updated_witness :
  VisitScalar removedScalar docs = Ok (None, None) docs
  ∧ visitNAList removedScalar docs = Ok (None, None) docs
  ∧ VisitList removedScalar walk.NonAssociateList docs = Ok (None, None) docs.
Proof.
  apply (@added_or_removed_takes_updated yamlAPI walkAPI merge3.mkVisitor
           removedScalar docs);
    vm_compute; (reflexivity || discriminate).
Defined.

(** The scalar [2] is in Dest only. *)
Lemma local_only_keeps_dest_witness :
  VisitScalar localOnly docs = Ok (two, None) docs
  ∧ visitNAList localOnly docs = Ok (two, None) docs
  ∧ VisitList localOnly walk.NonAssociateList docs = Ok (two, None) docs.
Proof.
  apply (@local_only_keeps_dest yamlAPI walkAPI merge3.mkVisitor localOnly docs);
    vm_compute; reflexivity.
Defined.

(** Origin and Updated are the list [[1, 2]], Dest is the list [[2]]. *)
Lemma dest_is_the_seed_witness :
  VisitMap keptList docs = Ok (list2, None) docs
  ∧ visitAList keptList docs = Ok (list2, None) docs
  ∧ VisitList keptList walk.AssociativeList docs = Ok (list2, None) docs.
Proof.
  apply (@dest_is_the_seed yamlAPI walkAPI merge3.mkVisitor keptList docs);
    vm_compute; reflexivity.
Defined.

(** The list [[1, 2]] is new in Updated: the seed is a list without
    children and not Updated's reference. *)
Lemma visitAList_fresh_seed_witness :
  ∃ a σ', visitAList addedItem docs = Ok (Some a, None) σ'
          ∧ nodeOf σ' (Some a) = Some (NodeOfKind SequenceNode)
          ∧ list12 ≠ Some a.
Proof.
  destruct (@visitAList_fresh_seed yamlAPI walkAPI merge3.mkVisitor addedItem docs)
    as (a & y & σ' & Hrun & _ & _ & Hn & _ & _ & Hs); try (vm_compute; reflexivity).
  exists a, σ'. split_and!; [done | done |].
  apply Hs. eapply allocated_intro; [vm_compute; reflexivity|].
  intros y' [= <-]. eexists. vm_compute. reflexivity.
Defined.

(** The item [{a: 1}] is in Origin and in Dest, and gone from
    Updated. *)
Lemma upstream_deletion_list_clears_map_keeps_witness :
  visitAList deletedItem docs = Ok (Some clearAddr, None) docs
  ∧ VisitMap deletedItem docs = Ok (mapA1, None) docs
  ∧ ∀ o, VisitMap (walk.mkSources o None mapA1) docs = VisitMap deletedItem docs.
Proof.
  apply (@upstream_deletion_list_clears_map_keeps yamlAPI walkAPI merge3.mkVisitor
           deletedItem docs);
    vm_compute; reflexivity.
Defined.

(** The sentinel and the map [{a: 1}] exist in the store of the
    documents. *)
Lemma rules_return_existing_references_witness :
  (∀ r e σ', VisitMap addedMap docs = Ok (r, e) σ' → allocated σ' r)
  ∧ (∀ r e σ', visitAList addedMap docs = Ok (r, e) σ' → allocated σ' r)
  ∧ (∀ r e σ', VisitScalar addedMap docs = Ok (r, e) σ' → allocated σ' r)
  ∧ (∀ r e σ', visitNAList addedMap docs = Ok (r, e) σ' → allocated σ' r).
Proof.
  apply (@rules_return_existing_references yamlAPI walkAPI merge3.mkVisitor
           addedMap docs).
  - eapply allocated_intro; [vm_compute; reflexivity|]. intros y [=].
  - eapply allocated_intro; [vm_compute; reflexivity|].
    intros y [= <-]. eexists. vm_compute. reflexivity.
  - exact I.
Defined.

(** Origin [[1, 2]] and Updated (the same list in flow style) render
    alike, and Dest holds a cell of no kind. *)
Lemma visitNAList_fails_on_dest_rendering_witness :
  visitNAList brokenDest docs = Ok (None, Some "cannot encode node") docs.
Proof.
  apply (@visitNAList_fails_on_dest_rendering yamlAPI walkAPI merge3.mkVisitor
           brokenDest docs "[1, 2]" "[1, 2]" "");
    vm_compute; reflexivity.
Defined.

(** Origin and Dest are the wrapper around nil, Updated is nil. *)
Lemma getStrValues_skips_absent_witness :
  getStrValues hollow docs = Ok (merge3.mkStrValues "" "" "", None) docs.
Proof.
  apply (@getStrValues_skips_absent yamlAPI merge3.mkVisitor hollow docs);
    vm_compute; reflexivity.
Defined.

(** Origin and Updated are the same reference to [[1, 2]]. *)
Lemma noop_update_keeps_dest_witness :
  VisitScalar keptList docs = Ok (list2, None) docs
  ∧ (visitNAList keptList docs = Ok (list2, None) docs
     ∨ ∃ e, visitNAList keptList docs = Ok (None, Some e) docs).
Proof.
  apply (@noop_update_keeps_dest yamlAPI walkAPI merge3.mkVisitor keptList docs);
    try (vm_compute; reflexivity).
  intros _. vm_compute. discriminate.
Defined.

(** Updated is the block list [[1, 2]] in cell 6: its string is the
    flow rendering, not the rendering under its stored style. *)
Lemma getStrValues_renders_updated_restyled_witness :
  "[1, 2]"
  = (String (mkState (<[6%positive := withStyle (Z.lor FlowStyle SingleQuotedStyle)
                                               (cells !!! 6%positive)]> cells)
                     wrappers) list12).1
  ∧ (String docs list12).1 = "- 1" ++ newline ++ "- 2".
Proof.
  split; [|vm_compute; reflexivity].
  apply (@getStrValues_renders_updated_restyled yamlAPI merge3.mkVisitor keptList docs
           6%positive (merge3.mkStrValues "[1, 2]" "[1, 2]" "[2]") docs).
  - vm_compute. reflexivity.
  - apply elem_of_dom. eexists. vm_compute. reflexivity.
  - vm_compute. reflexivity.
Defined.

End MoreOnTheModel.
